(** * Share-link lifecycle of the file-sharing server

    A shallow embedding of the share-link part of the Express/Mongoose
    server: the [File] schema, [calculateExpirationDate], the upload,
    share-page and download handlers and the hourly cleanup job, followed by
    the properties of the link lifecycle.

    Conventions of the embedding.
    - A JavaScript [Date] is its millisecond time value, an integer of [Z]
      of absolute value at most 8.64e15; [new Date(t)] outside that range is
      an invalid date, [None] here ([Expiry.new_Date]). Other numbers are
      mathematical integers; clocks are at or after the epoch, where the
      doubles of the code agree with them on every date in range.
    - The [File] collection is a finite map from document ids to documents;
      the uploads directory is the finite set of the file names it holds.
      A document id is a well-formed ObjectId. For a route parameter that
      is not one, [File.findById] rejects and both routes answer 500 before
      anything is read or written; such requests are not among the
      requests of this development.
    - A handler receives the instant [now] it runs at ([new Date()]) as an
      argument and returns its HTTP response with the new state. The upload
      route reads the clock a second time, for [createdAt]; that reading is
      [up_created].
    - The daily [Analytics] counters that [updateAnalytics] maintains live
      in a collection of their own, which no route reads when it decides on
      a link; they are left out of the state. *)

From Stdlib Require Import ZArith Ascii String List Lia.
From stdpp Require Import base option list strings gmap fin_maps fin_sets.

Local Open Scope string_scope.
Local Open Scope list_scope.
Local Open Scope Z_scope.

(** ** Expiry specifications: [calculateExpirationDate] *)

Module Expiry.

(** [\d] of the pattern: an ASCII decimal digit. *)
Definition is_digit (c : ascii) : bool :=
  let n := N_of_ascii c in ((48 <=? n)%N && (n <=? 57)%N)%bool.

(** [[hdwm]] of the pattern. *)
Definition is_unit (c : ascii) : bool :=
  match c with
  | "h"%char | "d"%char | "w"%char | "m"%char => true
  | _ => false
  end.

(** The [timeUnits] table; a key outside the table reads [undefined]. *)
Definition timeUnits (c : ascii) : option Z :=
  match c with
  | "h"%char => Some (60 * 60 * 1000)
  | "d"%char => Some (24 * 60 * 60 * 1000)
  | "w"%char => Some (7 * 24 * 60 * 60 * 1000)
  | "m"%char => Some (30 * 24 * 60 * 60 * 1000)
  | _ => None
  end.

(** [(\d+)([hdwm])] anchored at the head of [s]: the greedy digit run first
    tries to extend, and gives a digit back when the rest does not match. *)
Fixpoint digits_then_unit (s : string) : option (string * ascii) :=
  match s with
  | String d rest =>
      if is_digit d then
        match digits_then_unit rest with
        | Some (ds, u) => Some (String d ds, u)
        | None =>
            match rest with
            | String u _ => if is_unit u then Some (String d EmptyString, u) else None
            | EmptyString => None
            end
        end
      else None
  | EmptyString => None
  end.

(** [expiresIn.match(/(\d+)([hdwm])/)]: the leftmost position at which the
    pattern matches, with its two capture groups. *)
Fixpoint regex_match (s : string) : option (string * ascii) :=
  match digits_then_unit s with
  | Some m => Some m
  | None =>
      match s with
      | String _ rest => regex_match rest
      | EmptyString => None
      end
  end.

Definition digit_value (c : ascii) : Z := Z.of_N (N_of_ascii c) - 48.

(** [parseInt] on a string that starts with decimal digits: the value of
    the leading digit run, [None] (NaN) when there is none. *)
Fixpoint parseInt_from (acc : option Z) (s : string) : option Z :=
  match s with
  | String c rest =>
      if is_digit c
      then parseInt_from (Some (10 * default 0 acc + digit_value c)) rest
      else acc
  | EmptyString => acc
  end.

Definition parseInt (s : string) : option Z := parseInt_from None s.

Definition default_window : Z := 24 * 60 * 60 * 1000.

(** The largest time value of a [Date], in milliseconds from the epoch. *)
Definition max_time : Z := 8640000000000000.

(** [new Date(t)] for a number [t]: the date with time value [t], or an
    invalid date ([None], a NaN time value) when [t] is outside the range
    of a [Date]. *)
Definition new_Date (t : Z) : option Z :=
  if (- max_time <=? t) && (t <=? max_time) then Some t else None.

(** [calculateExpirationDate], with the clock reading [now] of its first
    line. The sum is taken in the integers. For [0 <= now] that is the
    result of the code: when the sum is within the range of a [Date], the
    amount, the product and the sum are integers below 2^53, which the
    doubles carry exactly; when it is not, rounding is monotone and the
    double is outside the range as well (or infinite), so the date is
    invalid. *)
Definition calculateExpirationDate (now : Z) (expiresIn : string) : option Z :=
  match regex_match expiresIn with
  | None => new_Date (now + default_window)
  | Some (amount, unit) =>
      a ← parseInt amount;
      len ← timeUnits unit;
      new_Date (now + a * len)
  end.

(** The shape of a duration token [<amount><unit>]: a non-empty run of
    digits. *)
Fixpoint all_digits (s : string) : bool :=
  match s with
  | String c rest => is_digit c && all_digits rest
  | EmptyString => true
  end.

(** The decimal value of a digit string. *)
Fixpoint decimal_from (acc : Z) (s : string) : Z :=
  match s with
  | String c rest => decimal_from (10 * acc + digit_value c) rest
  | EmptyString => acc
  end.

Definition decimal (s : string) : Z := decimal_from 0 s.

(** A digit immediately followed by a unit letter occurs in [s]. *)
Fixpoint has_digit_unit (s : string) : bool :=
  match s with
  | String c rest =>
      match rest with
      | String u _ => (is_digit c && is_unit u) || has_digit_unit rest
      | EmptyString => false
      end
  | EmptyString => false
  end.

(** The specifications the pattern finds no duration token in, said
    without the pattern: at no position a decimal digit is immediately
    followed by one of the letters [h], [d], [w], [m]. *)
Definition no_duration_token (s : string) : Prop :=
  forall (i : nat) (c u : ascii),
    String.get i s = Some c -> String.get (S i) s = Some u ->
    ~ (In c ["0"; "1"; "2"; "3"; "4"; "5"; "6"; "7"; "8"; "9"]%char
       /\ In u ["h"; "d"; "w"; "m"]%char).

End Expiry.

Import Expiry.

(** ** The [File] schema *)

Inductive Status := active | expired | disabled.

#[global] Instance Status_eq_dec : EqDecision Status.
Proof. solve_decision. Defined.

(** An element of [downloadHistory]. *)
Record DownloadEvent := mkDownloadEvent {
  downloadedAt : Z;
  ip : string;
  country : string;
  userAgent : string
}.

#[global] Instance DownloadEvent_eq_dec : EqDecision DownloadEvent.
Proof. solve_decision. Defined.

Record ShareStats := mkShareStats {
  totalViews : Z;
  uniqueVisitors : Z;
  peakDownloads : Z
}.

#[global] Instance ShareStats_eq_dec : EqDecision ShareStats.
Proof. solve_decision. Defined.

(** A document of the [File] collection. [expiresAt] and [passwordHash] are
    optional paths: [None] is an absent (or null) value. *)
Record File := mkFile {
  name : string;
  size : Z;
  path : string;
  createdAt : Z;
  expiresIn : string;
  expiresAt : option Z;
  passwordProtected : bool;
  passwordHash : option string;
  downloads : Z;
  maxDownloads : Z;
  status : Status;
  fileType : string;
  uploadedBy : string;
  isPublic : bool;
  downloadHistory : list DownloadEvent;
  shareStats : ShareStats
}.

#[global] Instance File_eq_dec : EqDecision File.
Proof. solve_decision. Defined.

(** Assignments to the paths the handlers write. *)
Definition set_status (s : Status) (f : File) : File :=
  mkFile (name f) (size f) (path f) (createdAt f) (expiresIn f) (expiresAt f)
    (passwordProtected f) (passwordHash f) (downloads f) (maxDownloads f) s
    (fileType f) (uploadedBy f) (isPublic f) (downloadHistory f) (shareStats f).

Definition set_downloads (n : Z) (f : File) : File :=
  mkFile (name f) (size f) (path f) (createdAt f) (expiresIn f) (expiresAt f)
    (passwordProtected f) (passwordHash f) n (maxDownloads f) (status f)
    (fileType f) (uploadedBy f) (isPublic f) (downloadHistory f) (shareStats f).

Definition set_downloadHistory (h : list DownloadEvent) (f : File) : File :=
  mkFile (name f) (size f) (path f) (createdAt f) (expiresIn f) (expiresAt f)
    (passwordProtected f) (passwordHash f) (downloads f) (maxDownloads f) (status f)
    (fileType f) (uploadedBy f) (isPublic f) h (shareStats f).

Definition set_shareStats (s : ShareStats) (f : File) : File :=
  mkFile (name f) (size f) (path f) (createdAt f) (expiresIn f) (expiresAt f)
    (passwordProtected f) (passwordHash f) (downloads f) (maxDownloads f) (status f)
    (fileType f) (uploadedBy f) (isPublic f) (downloadHistory f) s.

Definition set_totalViews (n : Z) (f : File) : File :=
  set_shareStats
    (mkShareStats n (uniqueVisitors (shareStats f)) (peakDownloads (shareStats f))) f.

Definition set_peakDownloads (n : Z) (f : File) : File :=
  set_shareStats
    (mkShareStats (totalViews (shareStats f)) (uniqueVisitors (shareStats f)) n) f.

(** [file.downloadHistory.push(e)] *)
Definition push_history (e : DownloadEvent) (f : File) : File :=
  set_downloadHistory (downloadHistory f ++ [e]) f.

(** ** Server state *)

(** What the cleanup job reads as [settings?.security?.autoDeleteExpired]
    after [UserSettings.findOne({ userId: 'default' })]: [undefined], which
    is falsy, when there is no such document ([None]); otherwise the flag
    of the document, for which Mongoose puts the schema default [true]
    when the stored document has none ([Some None]). *)
Definition read_autoDeleteExpired (settings : option (option bool)) : bool :=
  match settings with
  | None => false
  | Some flag => default true flag
  end.

(** The [File] collection and the content of the uploads directory, with
    [autoDeleteExpired], the value the cleanup job reads for the flag of
    the default settings document ([read_autoDeleteExpired]): [true] for a
    document that stores [true] or stores no flag, [false] for a document
    that stores [false] and when there is no settings document. No route
    of this development writes the settings. *)
Record State := mkState {
  files : gmap string File;
  uploads : gset string;
  autoDeleteExpired : bool
}.

Definition with_files (db : gmap string File) (st : State) : State :=
  mkState db (uploads st) (autoDeleteExpired st).

Definition with_uploads (d : gset string) (st : State) : State :=
  mkState (files st) d (autoDeleteExpired st).

(** [File.findById(id)] for a well-formed id: the document stored under
    it, if any. *)
Definition findById (id : string) (st : State) : option File := files st !! id.

(** What [save] writes for one path of a loaded document: the path is sent
    only if the handler changed it, otherwise the stored value stays. *)
Definition written {A} `{EqDecision A} (loaded cur stored : A) : A :=
  if decide (cur = loaded) then stored else cur.

(** The stored document after [file.save()] of a document that was read as
    [loaded] and is now [cur]: modified scalar paths are set, and the
    elements pushed on [downloadHistory] are appended to the stored array. *)
Definition persist (loaded cur stored : File) : File :=
  mkFile
    (written (name loaded) (name cur) (name stored))
    (written (size loaded) (size cur) (size stored))
    (written (path loaded) (path cur) (path stored))
    (written (createdAt loaded) (createdAt cur) (createdAt stored))
    (written (expiresIn loaded) (expiresIn cur) (expiresIn stored))
    (written (expiresAt loaded) (expiresAt cur) (expiresAt stored))
    (written (passwordProtected loaded) (passwordProtected cur) (passwordProtected stored))
    (written (passwordHash loaded) (passwordHash cur) (passwordHash stored))
    (written (downloads loaded) (downloads cur) (downloads stored))
    (written (maxDownloads loaded) (maxDownloads cur) (maxDownloads stored))
    (written (status loaded) (status cur) (status stored))
    (written (fileType loaded) (fileType cur) (fileType stored))
    (written (uploadedBy loaded) (uploadedBy cur) (uploadedBy stored))
    (written (isPublic loaded) (isPublic cur) (isPublic stored))
    (downloadHistory stored
       ++ drop (length (downloadHistory loaded)) (downloadHistory cur))
    (mkShareStats
       (written (totalViews (shareStats loaded)) (totalViews (shareStats cur))
          (totalViews (shareStats stored)))
       (written (uniqueVisitors (shareStats loaded)) (uniqueVisitors (shareStats cur))
          (uniqueVisitors (shareStats stored)))
       (written (peakDownloads (shareStats loaded)) (peakDownloads (shareStats cur))
          (peakDownloads (shareStats stored)))).

(** [await file.save()] for a document read earlier under [id]. *)
Definition save (id : string) (loaded cur : File) (st : State) : State :=
  with_files (alter (persist loaded cur) id (files st)) st.

(** ** HTTP requests and responses *)

(** [req.file] as multer leaves it: the file is already on disk under
    [filename] when the handler runs. *)
Record UploadedFile := mkUploadedFile {
  originalname : string;
  filesize : Z;
  filename : string
}.

(** What the upload handler reads: [req.file], the multipart fields
    ([None] is an absent field), the address the location middleware
    attached, and [up_created], the value of [Date.now()] when the handler
    builds the document, which is the schema default of [createdAt]. The
    handler has read the clock once before, in [calculateExpirationDate];
    that earlier reading is the [now] of the handler. *)
Record UploadReq := mkUploadReq {
  up_file : option UploadedFile;
  up_expiresIn : option string;
  up_password : option string;
  up_isPublic : option string;
  up_ip : option string;
  up_created : Z
}.

(** A download request: the id of the route (a well-formed ObjectId), the
    [password] of the body, the headers and socket address the handler
    reads, and the country the location middleware attached. The password
    is a string or is absent; a JSON body may carry another value there,
    and a truthy one makes [bcrypt.compare] throw on a protected link,
    which the route answers with 500: such bodies are not among the
    requests of this development. *)
Record DownloadReq := mkDownloadReq {
  dl_id : string;
  dl_password : option string;
  dl_userAgent : option string;
  dl_forwardedFor : option string;
  dl_remoteAddress : option string;
  dl_country : string
}.

Inductive Response :=
  | Json (code : Z) (error : string)
      (** [res.status(code).json({ error })] *)
  | Uploaded (id : string) (fname : string) (fsize : Z) (expires : Z)
      (** the 200 answer of the upload route *)
  | Page (code : Z) (title : string)
      (** [res.status(code).send(html)] of the share page *)
  | SendFile (filePath : string) (fname : string).
      (** [res.download(filePath, file.name)] *)

#[global] Instance Response_eq_dec : EqDecision Response.
Proof. solve_decision. Defined.

Definition file_not_found : Response := Json 404 "File not found".
Definition file_has_expired : Response := Json 403 "File has expired".
Definition file_inactive : Response := Json 403 "File expired or inactive".
Definition limit_reached : Response := Json 403 "Download limit reached".
Definition invalid_password : Response := Json 401 "Invalid password".
Definition missing_on_disk : Response := Json 404 "File missing on disk".
Definition download_failed : Response := Json 500 "Download failed".

(** JavaScript truthiness of an optional string: present and not empty. *)
Definition truthy (o : option string) : bool :=
  match o with
  | Some s => negb (String.eqb s "")
  | None => false
  end.

(** [a || b] on optional strings. *)
Definition or_else (a : option string) (b : option string) : option string :=
  if truthy a then a else b.

(** ** File types: [getFileType] *)

Module FileType.

(** File names are strings of code units below 256, the characters of
    Rocq's [string]. A name with a code unit from 256 up is outside this
    module: JavaScript's [toLowerCase] follows Unicode there (the Kelvin
    sign U+212A lowers to [k]), while [path.extname] only looks for [/]
    and [.] and treats every other code unit alike. *)

(** [toLowerCase] on one code unit below 256: the ASCII capitals and the
    Latin-1 capitals (all of [À]..[Þ] but the multiplication sign) move up
    by 32. *)
Definition lower (c : ascii) : ascii :=
  let n := N_of_ascii c in
  if ((65 <=? n) && (n <=? 90) || (192 <=? n) && (n <=? 222) && negb (n =? 215))%N
  then ascii_of_N (n + 32)
  else c.

Fixpoint toLowerCase (s : string) : string :=
  match s with
  | String c rest => String (lower c) (toLowerCase rest)
  | EmptyString => EmptyString
  end.

(** The variables of the loop of POSIX [path.extname]. *)
Record Scan := mkScan {
  startDot : Z;
  startPart : Z;
  endPart : Z;
  matchedSlash : bool;
  preDotState : Z
}.

(** The loop of [path.extname], from the last character down: [chars] are
    the characters still to visit, the one at index [i] first. *)
Fixpoint scan (chars : list ascii) (i : Z) (s : Scan) : Scan :=
  match chars with
  | [] => s
  | c :: rest =>
      if Ascii.eqb c "/" then
        if negb (matchedSlash s)
        then mkScan (startDot s) (i + 1) (endPart s) (matchedSlash s) (preDotState s)
        else scan rest (i - 1) s
      else
        let s :=
          if endPart s =? -1
          then mkScan (startDot s) (startPart s) (i + 1) false (preDotState s)
          else s in
        let s :=
          if Ascii.eqb c "." then
            if startDot s =? -1
            then mkScan i (startPart s) (endPart s) (matchedSlash s) (preDotState s)
            else if negb (preDotState s =? 1)
                 then mkScan (startDot s) (startPart s) (endPart s) (matchedSlash s) 1
                 else s
          else if negb (startDot s =? -1)
               then mkScan (startDot s) (startPart s) (endPart s) (matchedSlash s) (-1)
               else s in
        scan rest (i - 1) s
  end.

(** [path.slice(from, to)] for [0 <= from <= to]. *)
Definition slice (from to : Z) (s : string) : string :=
  String.substring (Z.to_nat from) (Z.to_nat (to - from)) s.

(** POSIX [path.extname]. *)
Definition extname (path : string) : string :=
  let chars := list_ascii_of_string path in
  let s := scan (rev chars) (Z.of_nat (length chars) - 1) (mkScan (-1) 0 (-1) true 0) in
  if (startDot s =? -1) || (endPart s =? -1) || (preDotState s =? 0)
     || ((preDotState s =? 1) && (startDot s =? endPart s - 1)
         && (startDot s =? startPart s + 1))
  then ""
  else slice (startDot s) (endPart s) path.

(** The [typeMap] table. *)
Definition typeMap (ext : string) : option string :=
  if String.eqb ext ".pdf" then Some "PDF"
  else if String.eqb ext ".doc" then Some "Document"
  else if String.eqb ext ".docx" then Some "Document"
  else if String.eqb ext ".txt" then Some "Text"
  else if String.eqb ext ".jpg" then Some "Image"
  else if String.eqb ext ".jpeg" then Some "Image"
  else if String.eqb ext ".png" then Some "Image"
  else if String.eqb ext ".gif" then Some "Image"
  else if String.eqb ext ".mp4" then Some "Video"
  else if String.eqb ext ".avi" then Some "Video"
  else if String.eqb ext ".mkv" then Some "Video"
  else if String.eqb ext ".mp3" then Some "Audio"
  else if String.eqb ext ".wav" then Some "Audio"
  else if String.eqb ext ".zip" then Some "Archive"
  else if String.eqb ext ".rar" then Some "Archive"
  else if String.eqb ext ".7z" then Some "Archive"
  else if String.eqb ext ".js" then Some "Code"
  else if String.eqb ext ".html" then Some "Code"
  else if String.eqb ext ".css" then Some "Code"
  else if String.eqb ext ".py" then Some "Code"
  else None.

Definition getFileType (filename : string) : string :=
  default "Other" (typeMap (toLowerCase (extname filename))).

(** No [/] occurs in [s]; neither [/] nor [.] occurs in [s]. *)
Fixpoint slash_free (s : string) : bool :=
  match s with
  | String c rest => negb (Ascii.eqb c "/") && slash_free rest
  | EmptyString => true
  end.

Fixpoint plain (s : string) : bool :=
  match s with
  | String c rest => negb (Ascii.eqb c "/") && negb (Ascii.eqb c ".") && plain rest
  | EmptyString => true
  end.

End FileType.

From Stdlib Require DecimalString.

(** ** The list of shares: the expiry label *)

Module RecentShares.

(** An integer inside a template literal. *)
Definition show (n : Z) : string :=
  DecimalString.NilZero.string_of_int (Z.to_int n).

(** [formatExpiryTime], on the time value of [expiresAt]; [Math.floor] of
    a quotient of integers is [Z.div]. *)
Definition formatExpiryTime (now expiry : Z) : string :=
  let diffInMs := expiry - now in
  if diffInMs <=? 0 then "Expired"
  else
    let diffInHours := diffInMs / (1000 * 60 * 60) in
    let diffInDays := diffInHours / 24 in
    if 0 <? diffInDays then show diffInDays +:+ "d"
    else if 0 <? diffInHours then show diffInHours +:+ "h"
    else show (diffInMs / (1000 * 60)) +:+ "m".

End RecentShares.

(** ** Concrete links for the worked executions *)

Module Scenario.

(** A stand-in for bcrypt: the hash of a password is the password behind
    a fixed prefix. *)
Definition hash (pw : string) : string := "$2b$10$" +:+ pw.
Definition compare (pw h : string) : bool := String.eqb (hash pw) h.
Definition file_type (_ : string) : string := "Other".

(** A link issued at time 0 for one hour, as the upload route stores it
    but for the quota. *)
Definition link (quota : Z) (password : option string) : File :=
  {| name := "report.pdf";
     size := 1024;
     path := "0-report.pdf";
     createdAt := 0;
     expiresIn := "1h";
     expiresAt := Some 3600000;
     passwordProtected := truthy password;
     passwordHash := hash <$> password;
     downloads := 0;
     maxDownloads := quota;
     status := active;
     fileType := "PDF";
     uploadedBy := "10.0.0.1";
     isPublic := true;
     downloadHistory := [];
     shareStats := mkShareStats 0 0 0 |}.

(** A store that holds one document under the id [f1], with its content
    on disk. *)
Definition store (file : File) : State :=
  mkState {[ "f1" := file ]} {[ path file ]} true.

(** The same store after the content was removed from disk. *)
Definition store_without_content (file : File) : State :=
  mkState {[ "f1" := file ]} ∅ true.

Definition request (password : option string) : DownloadReq :=
  mkDownloadReq "f1" password (Some "curl/8.0") None (Some "10.0.0.2") "DE".

End Scenario.

Section Server.

(** The collaborators the handlers call and this development leaves
    abstract: the salted bcrypt hash of the upload route,
    [bcrypt.compare], and [getFileType]. *)
Variable bcrypt_hash : string -> string.
Variable bcrypt_compare : string -> string -> bool.
Variable getFileType : string -> string.

(** *** Upload *)

(** [new File({...})] of the upload route with the schema defaults
    ([createdAt] the clock at that moment, [downloads] 0, [maxDownloads]
    50, [status] active, no history). *)
Definition new_file (created : Z) (f : UploadedFile) (req : UploadReq)
    (expIn : string) (expAt : Z) : File :=
  let protected := truthy (up_password req) in
  {| name := originalname f;
     size := filesize f;
     path := filename f;
     createdAt := created;
     expiresIn := expIn;
     expiresAt := Some expAt;
     passwordProtected := protected;
     passwordHash :=
       if protected then bcrypt_hash <$> up_password req else None;
     downloads := 0;
     maxDownloads := 50;
     status := active;
     fileType := getFileType (originalname f);
     uploadedBy := default "unknown" (or_else (up_ip req) None);
     isPublic :=
       match up_isPublic req with
       | None => true
       | Some s => String.eqb s "true"
       end;
     downloadHistory := [];
     shareStats := mkShareStats 0 0 0 |}.

(** [POST /upload]. The new document gets an id no stored document has.
    An invalid [expiresAt] does not cast to a [Date]: [save] rejects, no
    document is stored, and the route answers 500 with a message that
    starts with [Upload failed]; the file multer wrote stays on disk. *)
Definition upload (now : Z) (req : UploadReq) (st : State) : Response * State :=
  match up_file req with
  | None => (Json 400 "No file uploaded", st)
  | Some f =>
      let st := with_uploads ({[filename f]} ∪ uploads st) st in
      let expIn := default "24h" (up_expiresIn req) in
      match calculateExpirationDate now expIn with
      | None => (Json 500 "Upload failed", st)
      | Some expAt =>
          let id := fresh (dom (files st)) in
          let file := new_file (up_created req) f req expIn expAt in
          (Uploaded id (name file) (size file) expAt,
           with_files (<[id := file]> (files st)) st)
      end
  end.

(** *** Expiry test shared by the share page and the download route *)

(** [file.expiresAt && new Date() > file.expiresAt] *)
Definition past_expiry (now : Z) (file : File) : bool :=
  match expiresAt file with
  | Some e => e <? now
  | None => false
  end.

(** *** Share page *)

(** [GET /share/:id] *)
Definition share_page (now : Z) (id : string) (st : State) : Response * State :=
  match findById id st with
  | None => (Page 404 "File Not Found", st)
  | Some file =>
      if past_expiry now file then
        (Page 403 "File Expired", save id file (set_status expired file) st)
      else
        (Page 200 ("Download " +:+ name file),
         save id file (set_totalViews (totalViews (shareStats file) + 1) file) st)
  end.

(** *** Download *)

Inductive PasswordCheck := pw_ok | pw_rejected | pw_threw.

(** The password block of the download route. [bcrypt.compare] throws
    when the stored hash is missing. *)
Definition check_password (password : option string) (file : File) : PasswordCheck :=
  if passwordProtected file then
    match password with
    | Some pw =>
        if truthy password then
          match passwordHash file with
          | Some h => if bcrypt_compare pw h then pw_ok else pw_rejected
          | None => pw_threw
          end
        else pw_rejected
    | None => pw_rejected
    end
  else pw_ok.

Definition download_event (now : Z) (req : DownloadReq) : DownloadEvent :=
  {| downloadedAt := now;
     ip := default "unknown" (or_else (dl_forwardedFor req)
                                (or_else (dl_remoteAddress req) None));
     country := dl_country req;
     userAgent := default "unknown" (or_else (dl_userAgent req) None) |}.

(** The in-memory document after the four updates of the commit block. *)
Definition count_download (now : Z) (req : DownloadReq) (file : File) : File :=
  let file := set_downloads (downloads file + 1) file in
  let file := push_history (download_event now req) file in
  let file := set_totalViews (totalViews (shareStats file) + 1) file in
  if peakDownloads (shareStats file) <? downloads file
  then set_peakDownloads (downloads file) file
  else file.

(** The download route on a document that [findById] returned: the
    response, and the document handed to [save] when the route saves.
    [disk] is the uploads directory [fs.existsSync] looks at. *)
Definition download_loaded (now : Z) (req : DownloadReq) (disk : gset string)
    (file : File) : Response * option File :=
  if past_expiry now file then
    (file_has_expired, Some (set_status expired file))
  else if negb (bool_decide (status file = active)) then
    (file_inactive, None)
  else if maxDownloads file <=? downloads file then
    (limit_reached, Some (set_status expired file))
  else
    match check_password (dl_password req) file with
    | pw_rejected => (invalid_password, None)
    | pw_threw => (download_failed, None)
    | pw_ok =>
        let file := count_download now req file in
        (if bool_decide (path file ∈ disk)
         then SendFile (path file) (name file)
         else missing_on_disk,
         Some file)
    end.

(** The write of a handler that loaded [loaded]. *)
Definition save_if (id : string) (loaded : File) (w : option File) (st : State) : State :=
  match w with
  | Some cur => save id loaded cur st
  | None => st
  end.

(** [POST /files/:id/download], run without interruption. *)
Definition download (now : Z) (req : DownloadReq) (st : State) : Response * State :=
  match findById (dl_id req) st with
  | None => (file_not_found, st)
  | Some file =>
      let '(res, w) := download_loaded now req (uploads st) file in
      (res, save_if (dl_id req) file w st)
  end.

(** *** Scheduled cleanup *)

(** The filter [{ status: 'active', expiresAt: { $lte: now } }]; a
    document without [expiresAt] does not match [$lte]. *)
Definition cleanup_query (now : Z) (file : File) : bool :=
  bool_decide (status file = active) &&
  match expiresAt file with
  | Some e => e <=? now
  | None => false
  end.

(** [File.find(query)]: the matching documents with their ids. *)
Definition find (query : File -> bool) (st : State) : list (string * File) :=
  map_to_list (filter (fun kv => query kv.2 = true) (files st)).

(** The body of the cleanup loop for one document. *)
Definition expire_one (st : State) (doc : string * File) : State :=
  let '(id, file) := doc in
  let st := save id file (set_status expired file) st in
  if autoDeleteExpired st && bool_decide (path file ∈ uploads st)
  then with_uploads (uploads st ∖ {[path file]}) st
  else st.

(** One run of the hourly job. *)
Definition cleanup (now : Z) (st : State) : State :=
  foldl expire_one st (find (cleanup_query now) st).

(** *** Sequential executions *)

Inductive Request :=
  | ReqUpload (req : UploadReq)
  | ReqSharePage (id : string)
  | ReqDownload (req : DownloadReq)
  | Cron.

Definition handle (now : Z) (r : Request) (st : State) : State :=
  match r with
  | ReqUpload req => (upload now req st).2
  | ReqSharePage id => (share_page now id st).2
  | ReqDownload req => (download now req st).2
  | Cron => cleanup now st
  end.

(** The state after a sequence of requests, each with the instant it is
    served at, served one after the other. *)
Definition run (trace : list (Z * Request)) (st : State) : State :=
  foldl (fun st '(now, r) => handle now r st) st trace.

(** *** Interleaved downloads

    A handler gives control back at each [await]. A download is followed
    through the two points that matter for the stored document: the
    [findById] that reads it and the rest of the route, which decides on
    the document read and saves. *)

Inductive Handler :=
  | Arrived (req : DownloadReq)
  | Loaded (req : DownloadReq) (file : option File)
  | Answered (res : Response).

Definition advance (now : Z) (h : Handler) (st : State) : Handler * State :=
  match h with
  | Arrived req => (Loaded req (findById (dl_id req) st), st)
  | Loaded req None => (Answered file_not_found, st)
  | Loaded req (Some file) =>
      let '(res, w) := download_loaded now req (uploads st) file in
      (Answered res, save_if (dl_id req) file w st)
  | Answered res => (h, st)
  end.

(** Two handlers in flight; the schedule says which one runs next
    ([true] for the first). *)
Fixpoint interleave (now : Z) (schedule : list bool) (h1 h2 : Handler) (st : State)
    : Handler * Handler * State :=
  match schedule with
  | [] => (h1, h2, st)
  | true :: rest =>
      let '(h1', st') := advance now h1 st in interleave now rest h1' h2 st'
  | false :: rest =>
      let '(h2', st') := advance now h2 st in interleave now rest h1 h2' st'
  end.

(** The schedule in which both handlers read the document before either
    saves. *)
Definition reads_before_writes : list bool := [true; false; true; false].

(** *** Invariants of a document *)

Definition within_quota (file : File) : Prop := downloads file <= maxDownloads file.

Definition log_matches_counter (file : File) : Prop :=
  Z.of_nat (length (downloadHistory file)) = downloads file.

(** A document as the upload route creates it, with any positive quota. *)
Definition freshly_created (file : File) : Prop :=
  downloads file = 0 /\ 0 < maxDownloads file /\ downloadHistory file = [].

(** The two ways a request can leave the counter and the history of a
    stored document: untouched, or one download counted and logged. *)
Definition not_counted (file file' : File) : Prop :=
  downloads file' = downloads file /\ downloadHistory file' = downloadHistory file.

Definition counted_once (file file' : File) : Prop :=
  downloads file' = downloads file + 1
  /\ exists e, downloadHistory file' = downloadHistory file ++ [e].

Definition all_files (P : File -> Prop) (st : State) : Prop :=
  forall id file, files st !! id = Some file -> P file.

(** *** How a stored document evolves *)

(** The paths no route writes. *)
Definition same_link (f f' : File) : Prop :=
  name f' = name f /\ size f' = size f /\ path f' = path f
  /\ createdAt f' = createdAt f /\ expiresIn f' = expiresIn f
  /\ expiresAt f' = expiresAt f
  /\ passwordProtected f' = passwordProtected f
  /\ passwordHash f' = passwordHash f
  /\ maxDownloads f' = maxDownloads f /\ fileType f' = fileType f
  /\ uploadedBy f' = uploadedBy f /\ isPublic f' = isPublic f
  /\ uniqueVisitors (shareStats f') = uniqueVisitors (shareStats f).

(** What requests can do to a stored document over time. *)
Definition evolves (f f' : File) : Prop :=
  same_link f f'
  /\ downloads f <= downloads f'
  /\ downloadHistory f `prefix_of` downloadHistory f'
  /\ (status f' = status f \/ status f' = expired)
  /\ totalViews (shareStats f) <= totalViews (shareStats f')
  /\ peakDownloads (shareStats f) <= peakDownloads (shareStats f').

(** The answers of the download route that come after the commit block. *)
Definition counted_answer (res : Response) : bool :=
  match res with
  | SendFile _ _ => true
  | _ => bool_decide (res = missing_on_disk)
  end.

Definition delivered_answer (res : Response) : bool :=
  match res with
  | SendFile _ _ => true
  | _ => false
  end.

(** The number of requests of a sequential execution that are downloads of
    [id] and are answered as [test] says. *)
Fixpoint downloads_answered (test : Response -> bool) (id : string)
    (trace : list (Z * Request)) (st : State) : Z :=
  match trace with
  | [] => 0
  | (now, r) :: rest =>
      match r with
      | ReqDownload req =>
          if bool_decide (dl_id req = id) && test (download now req st).1
          then 1 else 0
      | _ => 0
      end + downloads_answered test id rest (handle now r st)
  end.

(** The share statistics the routes maintain, on a document whose counters
    started at zero. *)
Definition stats_consistent (f : File) : Prop :=
  peakDownloads (shareStats f) = downloads f
  /\ downloads f <= totalViews (shareStats f).

Definition pristine (f : File) : Prop :=
  downloads f = 0 /\ totalViews (shareStats f) = 0
  /\ peakDownloads (shareStats f) = 0.

(** A protected document carries a hash, as the upload route stores it. *)
Definition hash_present (f : File) : Prop :=
  passwordProtected f = true -> is_Some (passwordHash f).

(** No decimal digit occurs in [s]. *)
Fixpoint digit_free (s : string) : bool :=
  match s with
  | String c rest => negb (is_digit c) && digit_free rest
  | EmptyString => true
  end.

(** The decimal numeral [d], a sequence of digits, as a string. *)
Definition numeral (d : Decimal.uint) : string :=
  DecimalString.NilEmpty.string_of_uint d.

(** The outcome [out] of an upload of [f] on the state [st] is a success:
    the answer is the 200 answer with the name and size of the file and
    the expiry instant [expAt], and a new document is stored under the id
    of the answer, active, with no download counted and [expiresAt] the
    instant of the answer. *)
Definition issued (out : Response * State) (st : State) (f : UploadedFile)
    (expAt : Z) : Prop :=
  exists id file,
    out.1 = Uploaded id (originalname f) (filesize f) expAt
    /\ files st !! id = None
    /\ files out.2 !! id = Some file
    /\ expiresAt file = Some expAt
    /\ status file = active
    /\ downloads file = 0.

(** No other document is stored with the storage path of [file]. *)
Definition path_is_own (id : string) (file : File) (st : State) : Prop :=
  forall id' file', files st !! id' = Some file' -> path file' = path file -> id' = id.

(** What a handler that has read a document relies on: the document is
    still stored, with the quota it was read with. *)
Definition snapshot_of (h : Handler) (st : State) : Prop :=
  match h with
  | Loaded req (Some file) =>
      exists stored,
        files st !! dl_id req = Some stored
        /\ maxDownloads stored = maxDownloads file
  | _ => True
  end.

(** *** Daily analytics: [updateAnalytics] *)

(** A document of the [Analytics] collection. *)
Record Analytics := mkAnalytics {
  date : Z;
  totalDownloads : Z;
  filesShared : Z;
  dailyUniqueVisitors : Z;
  avgDownloadsPerFile : Z;
  fileTypes : list (string * Z * Z);
  topCountries : list (string * Z * Z);
  trafficPattern : list (Z * Z * Z)
}.

(** [today.setHours(0, 0, 0, 0)]: local midnight of the day of an instant;
    the time zone of the server is left abstract. *)
Variable startOfDay : Z -> Z.

(** [new Analytics({ date: today })] with the schema defaults. *)
Definition new_analytics (today : Z) : Analytics :=
  mkAnalytics today 0 0 0 0 [] [] [].

(** The two increments of [updateAnalytics]; any other action increments
    nothing. *)
Definition bump (action : string) (a : Analytics) : Analytics :=
  if String.eqb action "upload" then
    mkAnalytics (date a) (totalDownloads a) (filesShared a + 1)
      (dailyUniqueVisitors a) (avgDownloadsPerFile a)
      (fileTypes a) (topCountries a) (trafficPattern a)
  else if String.eqb action "download" then
    mkAnalytics (date a) (totalDownloads a + 1) (filesShared a)
      (dailyUniqueVisitors a) (avgDownloadsPerFile a)
      (fileTypes a) (topCountries a) (trafficPattern a)
  else a.

(** [updateAnalytics(action)] on the collection in its natural order:
    [findOne] returns the first document of today, a new one is created
    when there is none, and the document is saved after the increment. *)
Definition updateAnalytics (action : string) (now : Z) (docs : list Analytics)
    : list Analytics :=
  let today := startOfDay now in
  match list_find (fun a => date a = today) docs with
  | Some (i, a) => <[i := bump action a]> docs
  | None => docs ++ [bump action (new_analytics today)]
  end.

(** The server state with the analytics collection. *)
Record Site := mkSite {
  core : State;
  analytics : list Analytics
}.

(** [POST /upload] with its analytics update, which the route starts after
    the document was saved and which is taken to finish before the next
    request. *)
Definition upload_route (now : Z) (req : UploadReq) (s : Site) : Response * Site :=
  let '(res, st) := upload now req (core s) in
  (res,
   mkSite st
     match res with
     | Uploaded _ _ _ _ => updateAnalytics "upload" now (analytics s)
     | _ => analytics s
     end).

(** [POST /files/:id/download] with its analytics update, which the route
    awaits after the save and before it looks for the file on disk. *)
Definition download_route (now : Z) (req : DownloadReq) (s : Site) : Response * Site :=
  let '(res, st) := download now req (core s) in
  (res,
   mkSite st
     (if counted_answer res
      then updateAnalytics "download" now (analytics s)
      else analytics s)).

Definition handle_site (now : Z) (r : Request) (s : Site) : Site :=
  match r with
  | ReqUpload req => (upload_route now req s).2
  | ReqSharePage id => mkSite (share_page now id (core s)).2 (analytics s)
  | ReqDownload req => (download_route now req s).2
  | Cron => mkSite (cleanup now (core s)) (analytics s)
  end.

Definition run_site (trace : list (Z * Request)) (s : Site) : Site :=
  foldl (fun s '(now, r) => handle_site now r s) s trace.

(** The sum of a counter over the analytics documents. *)
Definition total (counter : Analytics -> Z) (docs : list Analytics) : Z :=
  foldr (fun a n => counter a + n) 0 docs.

(** The sum of a table of counters. *)
Definition sum_of (m : gmap string Z) : Z :=
  map_fold (fun _ d n => d + n) 0 m.

(** The sum of the download counters of the stored documents, and their
    number. *)
Definition stored_downloads (st : State) : Z := sum_of (downloads <$> files st).

Definition stored_documents (st : State) : Z :=
  Z.of_nat (base.size (files st)).

(** ** Properties of [calculateExpirationDate] and of issuance *)

Lemma unit_is_not_digit (c : ascii) : is_unit c = true -> is_digit c = false.
Proof.
  destruct c as [[] [] [] [] [] [] [] []]; simpl; intros H;
    try discriminate H; reflexivity.
Qed.

Lemma timeUnits_of_unit (c : ascii) : is_unit c = true <-> is_Some (timeUnits c).
Proof.
  destruct c as [[] [] [] [] [] [] [] []]; simpl; split; intros H;
    try discriminate H; try reflexivity; try (by eexists);
    destruct H as [? H]; discriminate H.
Qed.

Lemma append_String (c : ascii) (s t : string) :
  String c s +:+ t = String c (s +:+ t).
Proof. reflexivity. Qed.

Lemma append_empty (t : string) : "" +:+ t = t.
Proof. reflexivity. Qed.

(** On a token the anchored pattern takes the whole digit run. *)
Lemma digits_then_unit_token (amount : string) (unit : ascii) (tail : string) :
  all_digits amount = true -> amount <> "" -> is_unit unit = true ->
  digits_then_unit (amount +:+ String unit tail) = Some (amount, unit).
Proof.
  intros Hd Hne Hu. induction amount as [|d ds IH]; [done|].
  simpl in Hd. apply andb_prop in Hd as [Hd Hds].
  rewrite append_String. cbn [digits_then_unit]. rewrite Hd.
  destruct ds as [|d' ds'].
  - rewrite append_empty. cbn [digits_then_unit].
    rewrite (unit_is_not_digit _ Hu), Hu. reflexivity.
  - rewrite IH; [reflexivity | exact Hds | discriminate].
Qed.

Lemma regex_match_token (amount : string) (unit : ascii) (tail : string) :
  all_digits amount = true -> amount <> "" -> is_unit unit = true ->
  regex_match (amount +:+ String unit tail) = Some (amount, unit).
Proof.
  intros Hd Hne Hu.
  pose proof (digits_then_unit_token amount unit tail Hd Hne Hu) as H.
  destruct amount as [|d ds]; [done|].
  rewrite append_String in *. cbn [regex_match]. rewrite H. reflexivity.
Qed.

Lemma parseInt_from_digits (s : string) (acc : option Z) :
  all_digits s = true -> s <> "" ->
  parseInt_from acc s = Some (decimal_from (default 0 acc) s).
Proof.
  revert acc. induction s as [|c s IH]; intros acc Hd Hne; [done|].
  simpl in Hd. apply andb_prop in Hd as [Hc Hs].
  cbn [parseInt_from decimal_from]. rewrite Hc.
  destruct s as [|c' s'].
  - reflexivity.
  - rewrite IH; [reflexivity | exact Hs | discriminate].
Qed.

Lemma parseInt_digits (s : string) :
  all_digits s = true -> s <> "" -> parseInt s = Some (decimal s).
Proof. intros. unfold parseInt, decimal. by rewrite parseInt_from_digits. Qed.

(** The anchored pattern matches nowhere unless a digit is next to a unit
    letter. *)
Lemma digits_then_unit_Some (s : string) (m : string * ascii) :
  digits_then_unit s = Some m -> has_digit_unit s = true.
Proof.
  revert m. induction s as [|c s IH]; intros m H; [discriminate H|].
  cbn [digits_then_unit] in H. cbn [has_digit_unit].
  destruct (is_digit c) eqn:Hc; [|discriminate H].
  destruct s as [|u s']; [discriminate H|].
  destruct (digits_then_unit (String u s')) as [[ds u']|] eqn:Hrec.
  - rewrite (IH _ eq_refl). by rewrite orb_true_r.
  - destruct (is_unit u) eqn:Hu; [|discriminate H]. reflexivity.
Qed.

Lemma digits_then_unit_head (c u : ascii) (s : string) :
  is_digit c = true -> is_unit u = true ->
  is_Some (digits_then_unit (String c (String u s))).
Proof.
  intros Hc Hu. cbn [digits_then_unit]. rewrite Hc, (unit_is_not_digit _ Hu), Hu.
  by eexists.
Qed.

(** What the pattern fails on: the strings in which no digit is
    immediately followed by one of [h], [d], [w], [m]. *)
Lemma regex_match_None_iff (s : string) :
  regex_match s = None <-> has_digit_unit s = false.
Proof.
  induction s as [|c s IH]; [done|].
  cbn [regex_match has_digit_unit].
  destruct (digits_then_unit (String c s)) as [m|] eqn:Hm.
  - apply digits_then_unit_Some in Hm. cbn [has_digit_unit] in Hm.
    rewrite Hm. split; discriminate.
  - rewrite IH. destruct s as [|u s']; [done|].
    destruct (is_digit c && is_unit u) eqn:Hcu; [|done].
    apply andb_prop in Hcu as [Hc Hu].
    destruct (digits_then_unit_head c u s' Hc Hu) as [m' Hm'].
    rewrite Hm' in Hm. discriminate Hm.
Qed.

Lemma new_Date_in_range (t : Z) :
  - max_time <= t <= max_time -> new_Date t = Some t.
Proof.
  intros [H1 H2]. unfold new_Date.
  by rewrite (proj2 (Z.leb_le _ _) H1), (proj2 (Z.leb_le _ _) H2).
Qed.

Lemma new_Date_beyond (t : Z) : max_time < t -> new_Date t = None.
Proof.
  intros H. unfold new_Date.
  by rewrite (proj2 (Z.leb_gt _ _) H), andb_false_r.
Qed.

Lemma new_Date_Some (t t' : Z) :
  new_Date t = Some t' -> t' = t /\ - max_time <= t <= max_time.
Proof.
  unfold new_Date.
  destruct (- max_time <=? t) eqn:H1; [|discriminate].
  destruct (t <=? max_time) eqn:H2; [|discriminate].
  intros [= <-]. apply Z.leb_le in H1, H2. done.
Qed.

(** What the pattern captures: a non-empty run of digits and a unit
    letter. *)
Lemma digits_then_unit_parts (s amount : string) (unit : ascii) :
  digits_then_unit s = Some (amount, unit) ->
  all_digits amount = true /\ amount <> "" /\ is_unit unit = true.
Proof.
  revert amount unit. induction s as [|c s IH]; intros a u H; [discriminate H|].
  cbn [digits_then_unit] in H.
  destruct (is_digit c) eqn:Hc; [|discriminate H].
  destruct (digits_then_unit s) as [[ds u']|] eqn:Hrec.
  - injection H as <- <-. destruct (IH _ _ eq_refl) as (Hds & _ & Hu').
    cbn [all_digits]. rewrite Hc, Hds. done.
  - destruct s as [|u0 s']; [discriminate H|].
    destruct (is_unit u0) eqn:Hu0; [|discriminate H].
    injection H as <- <-. cbn [all_digits]. rewrite Hc. done.
Qed.

Lemma regex_match_parts (s amount : string) (unit : ascii) :
  regex_match s = Some (amount, unit) ->
  all_digits amount = true /\ amount <> "" /\ is_unit unit = true.
Proof.
  induction s as [|c s IH]; intros H; [discriminate H|].
  cbn [regex_match] in H.
  destruct (digits_then_unit (String c s)) as [m|] eqn:Hm.
  - injection H as ->. by eapply digits_then_unit_parts.
  - by apply IH.
Qed.

Lemma calculateExpirationDate_fallback (now : Z) (spec : string) :
  regex_match spec = None ->
  calculateExpirationDate now spec = new_Date (now + 24 * 60 * 60 * 1000).
Proof. intros H. unfold calculateExpirationDate. by rewrite H. Qed.

Lemma calculateExpirationDate_token (now : Z) (amount : string) (unit : ascii)
    (len : Z) (tail : string) :
  all_digits amount = true -> amount <> "" -> timeUnits unit = Some len ->
  calculateExpirationDate now (amount +:+ String unit tail)
  = new_Date (now + decimal amount * len).
Proof.
  intros Hd Hne Hlen. unfold calculateExpirationDate.
  assert (is_unit unit = true) as Hu by (apply timeUnits_of_unit; by eexists).
  rewrite regex_match_token by done.
  rewrite parseInt_digits by done. simpl. rewrite Hlen. reflexivity.
Qed.

(** The only invalid date [calculateExpirationDate] yields is a date out
    of range: the amount and the unit of a match always have a value. *)
Lemma calculateExpirationDate_sum (now : Z) (spec : string) :
  exists t, calculateExpirationDate now spec = new_Date t.
Proof.
  unfold calculateExpirationDate.
  destruct (regex_match spec) as [[amount unit]|] eqn:Hm; [|by eexists].
  destruct (regex_match_parts _ _ _ Hm) as (Hd & Hne & Hu).
  rewrite parseInt_digits by done. simpl.
  apply timeUnits_of_unit in Hu as [len ->]. by eexists.
Qed.

Lemma digit_value_nonneg c : is_digit c = true -> 0 <= digit_value c.
Proof.
  unfold is_digit, digit_value. intros H. apply andb_prop in H as [H _].
  apply N.leb_le in H. lia.
Qed.

Lemma parseInt_from_nonneg s acc a :
  (forall x, acc = Some x -> 0 <= x) ->
  parseInt_from acc s = Some a -> 0 <= a.
Proof.
  revert acc. induction s as [|c s IH]; intros acc Hacc H; cbn in H; [by apply Hacc|].
  destruct (is_digit c) eqn:Hc; [|by apply Hacc].
  eapply IH; [|exact H]. intros x [= <-].
  pose proof (digit_value_nonneg c Hc).
  destruct acc as [y|]; cbn; [specialize (Hacc y eq_refl)|]; lia.
Qed.

Lemma timeUnits_positive u len : timeUnits u = Some len -> 0 < len.
Proof.
  destruct u as [[] [] [] [] [] [] [] []]; cbn; intros [= <-]; lia.
Qed.

(** No specification yields an expiry before the clock reading of
    [calculateExpirationDate]. *)
Lemma calculateExpirationDate_not_before now spec t :
  calculateExpirationDate now spec = Some t -> now <= t.
Proof.
  unfold calculateExpirationDate.
  destruct (regex_match spec) as [[amount unit]|].
  2: { intros [-> _]%new_Date_Some. unfold default_window. lia. }
  destruct (parseInt amount) as [a|] eqn:Ha; [|discriminate]. cbn.
  destruct (timeUnits unit) as [len|] eqn:Hlen; [|discriminate]. cbn.
  intros [-> _]%new_Date_Some. apply timeUnits_positive in Hlen.
  apply parseInt_from_nonneg in Ha; [nia|discriminate].
Qed.

(** *** Digits and units, one by one *)

Lemma is_digit_listed (c : ascii) :
  is_digit c = true ->
  In c ["0"; "1"; "2"; "3"; "4"; "5"; "6"; "7"; "8"; "9"]%char.
Proof.
  destruct c as [[] [] [] [] [] [] [] []]; cbn; intros H;
    try discriminate H; tauto.
Qed.

Lemma is_unit_listed (u : ascii) :
  is_unit u = true -> In u ["h"; "d"; "w"; "m"]%char.
Proof.
  destruct u as [[] [] [] [] [] [] [] []]; cbn; intros H;
    try discriminate H; tauto.
Qed.

Lemma no_duration_token_tail (c : ascii) (s : string) :
  no_duration_token (String c s) -> no_duration_token s.
Proof. intros H i a b Ha Hb. exact (H (S i) a b Ha Hb). Qed.

Lemma no_duration_token_no_match (s : string) :
  no_duration_token s -> regex_match s = None.
Proof.
  intros H. apply regex_match_None_iff.
  induction s as [|c s IH]; [done|].
  cbn [has_digit_unit]. destruct s as [|u s']; [done|].
  rewrite (IH (no_duration_token_tail _ _ H)), orb_false_r.
  destruct (is_digit c) eqn:Hc; [|done].
  destruct (is_unit u) eqn:Hu; [|done].
  exfalso. apply (H 0%nat c u eq_refl eq_refl).
  split; [by apply is_digit_listed|by apply is_unit_listed].
Qed.

Lemma timeUnits_listed (unit : ascii) (len : Z) :
  In (unit, len)
    [("h"%char, 3600000); ("d"%char, 86400000); ("w"%char, 604800000);
     ("m"%char, 2592000000)] ->
  timeUnits unit = Some len.
Proof.
  cbn. intros [H|[H|[H|[H|[]]]]]; injection H as <- <-; reflexivity.
Qed.

Lemma numeral_all_digits (d : Decimal.uint) : all_digits (numeral d) = true.
Proof. induction d; cbn; done. Qed.

Lemma numeral_nonempty (d : Decimal.uint) : d <> Decimal.Nil -> numeral d <> "".
Proof. by destruct d. Qed.

Lemma decimal_from_numeral (d : Decimal.uint) (acc : positive) :
  decimal_from (Z.pos acc) (numeral d) = Z.pos (Pos.of_uint_acc d acc).
Proof.
  revert acc. induction d; intros acc; cbn [numeral DecimalString.NilEmpty.string_of_uint
    decimal_from Pos.of_uint_acc]; [done|..];
    rewrite <- IHd; f_equal; unfold digit_value; cbn; lia.
Qed.

(** The value [parseInt] gives a numeral is the number it denotes. *)
Lemma decimal_numeral (d : Decimal.uint) : decimal (numeral d) = Z.of_uint d.
Proof.
  unfold decimal, Z.of_uint.
  induction d; cbn [numeral DecimalString.NilEmpty.string_of_uint decimal_from
    Pos.of_uint Z.of_N]; [done|exact IHd|..];
    unfold digit_value; cbn; apply decimal_from_numeral.
Qed.

(** ** The store: what [save] leaves behind *)

Lemma written_same {A} `{EqDecision A} (loaded cur : A) :
  written loaded cur loaded = cur.
Proof. unfold written. case_decide; congruence. Qed.

(** When nothing else wrote the document since it was read, saving it
    stores the in-memory document. *)
Lemma persist_same (loaded cur : File) :
  downloadHistory loaded `prefix_of` downloadHistory cur ->
  persist loaded cur loaded = cur.
Proof.
  intros [pushed Hp]. unfold persist. rewrite !written_same.
  rewrite Hp, drop_app_length, <- Hp.
  destruct cur as [? ? ? ? ? ? ? ? ? ? ? ? ? ? ? []]. reflexivity.
Qed.

Lemma save_loaded (id : string) (loaded cur : File) (st : State) :
  findById id st = Some loaded ->
  downloadHistory loaded `prefix_of` downloadHistory cur ->
  save id loaded cur st = with_files (<[id := cur]> (files st)) st.
Proof.
  intros Hl Hp. unfold save. unfold findById in Hl.
  by rewrite (alter_alt_Some _ _ _ _ Hl), persist_same.
Qed.

Lemma count_download_fields (now : Z) (req : DownloadReq) (file : File) :
  let file' := count_download now req file in
  downloads file' = downloads file + 1
  /\ downloadHistory file' = downloadHistory file ++ [download_event now req]
  /\ totalViews (shareStats file') = totalViews (shareStats file) + 1
  /\ peakDownloads (shareStats file')
     = Z.max (peakDownloads (shareStats file)) (downloads file + 1)
  /\ status file' = status file
  /\ maxDownloads file' = maxDownloads file
  /\ expiresAt file' = expiresAt file
  /\ path file' = path file
  /\ name file' = name file.
Proof.
  unfold count_download. cbn.
  destruct (peakDownloads (shareStats file) <? downloads file + 1) eqn:Hpk; cbn;
    repeat split; lia.
Qed.

(** Every document a download hands to [save] extends the history it was
    read with. *)
Lemma download_loaded_prefix now req disk file res cur :
  download_loaded now req disk file = (res, Some cur) ->
  downloadHistory file `prefix_of` downloadHistory cur.
Proof.
  unfold download_loaded. intros H.
  repeat (case_match; simplify_eq); try done.
  destruct (count_download_fields now req file) as (_ & -> & _).
  by apply prefix_app_r.
Qed.

(** The download route in terms of the stored document. *)
Lemma download_found now req st file :
  findById (dl_id req) st = Some file ->
  download now req st =
    ((download_loaded now req (uploads st) file).1,
     match (download_loaded now req (uploads st) file).2 with
     | Some cur => with_files (<[dl_id req := cur]> (files st)) st
     | None => st
     end).
Proof.
  intros Hf. unfold download. rewrite Hf.
  destruct (download_loaded now req (uploads st) file) as [res [cur|]] eqn:Hd;
    cbn [save_if fst snd]; [|done].
  rewrite save_loaded; [done..|]. by eapply download_loaded_prefix.
Qed.

Lemma download_missing now req st :
  findById (dl_id req) st = None -> download now req st = (file_not_found, st).
Proof. intros Hf. unfold download. by rewrite Hf. Qed.

Lemma share_page_found now id st file :
  findById id st = Some file ->
  (share_page now id st).2 =
    with_files
      (<[id := if past_expiry now file then set_status expired file
               else set_totalViews (totalViews (shareStats file) + 1) file]>
         (files st)) st.
Proof.
  intros Hf. unfold share_page. rewrite Hf.
  destruct (past_expiry now file); cbn [snd]; by rewrite save_loaded.
Qed.

(** ** The cleanup job, document by document *)

Lemma files_expire_one (st : State) (id : string) (file : File) :
  files (expire_one st (id, file))
  = alter (persist file (set_status expired file)) id (files st).
Proof. unfold expire_one. cbn. by case_match. Qed.

(** The loop leaves alone the documents it was not given. *)
Lemma cleanup_loop_other (docs : list (string * File)) (st : State) (id : string) :
  id ∉ docs.*1 -> files (foldl expire_one st docs) !! id = files st !! id.
Proof.
  revert st. induction docs as [|[k v] docs IH]; intros st Hid; [done|].
  cbn [foldl]. rewrite fmap_cons in Hid. cbn in Hid.
  apply not_elem_of_cons in Hid as [Hne Hid].
  rewrite IH by done. rewrite files_expire_one. by rewrite lookup_alter_ne.
Qed.

(** The loop expires each document it was given, once. *)
Lemma cleanup_loop_member (docs : list (string * File)) (st : State)
    (id : string) (file : File) :
  NoDup docs.*1 -> (id, file) ∈ docs -> files st !! id = Some file ->
  files (foldl expire_one st docs) !! id = Some (set_status expired file).
Proof.
  revert st. induction docs as [|[k v] docs IH]; intros st Hnd Hin Hst.
  { by apply elem_of_nil in Hin. }
  cbn [foldl]. rewrite fmap_cons in Hnd. cbn in Hnd.
  apply NoDup_cons in Hnd as [Hk Hnd].
  apply elem_of_cons in Hin as [Heq|Hin].
  - injection Heq as <- <-.
    rewrite cleanup_loop_other by done. rewrite files_expire_one.
    rewrite lookup_alter_eq, Hst. cbn. by rewrite persist_same.
  - assert (id <> k) as Hne.
    { intros ->. apply Hk. apply list_elem_of_fmap. by exists (k, file). }
    apply IH; [done..|]. rewrite files_expire_one. by rewrite lookup_alter_ne.
Qed.

Lemma find_member (query : File -> bool) (st : State) (id : string) (file : File) :
  (id, file) ∈ find query st <-> files st !! id = Some file /\ query file = true.
Proof. unfold find. rewrite elem_of_map_to_list. apply map_lookup_filter_Some. Qed.

(** One run of the job, read at one id. *)
Lemma cleanup_lookup (now : Z) (st : State) (id : string) :
  files (cleanup now st) !! id =
  (fun file => if cleanup_query now file then set_status expired file else file)
    <$> files st !! id.
Proof.
  unfold cleanup.
  destruct (files st !! id) as [file|] eqn:Hid; cbn.
  - destruct (cleanup_query now file) eqn:Hq.
    + apply cleanup_loop_member; [apply NoDup_fst_map_to_list| |done].
      by apply find_member.
    + rewrite cleanup_loop_other; [done|].
      intros ([k v] & Hk & Hin)%list_elem_of_fmap. cbn in Hk. subst k.
      apply find_member in Hin as [Hl Hv]. congruence.
  - rewrite cleanup_loop_other; [done|].
    intros ([k v] & Hk & Hin)%list_elem_of_fmap. cbn in Hk. subst k.
    apply find_member in Hin as [Hl Hv]. congruence.
Qed.

(** After a run nothing matches the query any more. *)
Lemma find_after_cleanup (now : Z) (st : State) :
  find (cleanup_query now) (cleanup now st) = [].
Proof.
  unfold find. apply map_to_list_empty_iff. apply map_eq. intros id.
  rewrite lookup_empty. apply eq_None_not_Some. intros [file Hf].
  apply map_lookup_filter_Some in Hf as [Hl Hq]. cbn in Hq.
  rewrite cleanup_lookup in Hl.
  destruct (files st !! id) as [file0|]; [|discriminate Hl]. cbn in Hl.
  destruct (cleanup_query now file0) eqn:Hq0; simplify_eq; congruence.
Qed.

(** ** One request, one document *)

Lemma new_file_fresh now f req expIn expAt :
  freshly_created (new_file now f req expIn expAt).
Proof. unfold freshly_created. cbn. repeat split; lia. Qed.

Lemma upload_document now req st id file' :
  files (upload now req st).2 !! id = Some file' ->
  files st !! id = Some file'
  \/ (files st !! id = None /\ freshly_created file').
Proof.
  unfold upload. destruct (up_file req) as [f|]; [|by left].
  destruct (calculateExpirationDate now _) as [expAt|]; [|by left].
  cbn. intros H.
  destruct (decide (id = fresh (dom (files st)))) as [->|Hne].
  - rewrite lookup_insert_eq in H. injection H as <-. right. split.
    + apply not_elem_of_dom. apply is_fresh.
    + apply new_file_fresh.
  - rewrite lookup_insert_ne in H by done. by left.
Qed.

Lemma share_page_document now id0 st id file file' :
  files st !! id = Some file ->
  files (share_page now id0 st).2 !! id = Some file' ->
  maxDownloads file' = maxDownloads file /\ not_counted file file'.
Proof.
  intros Hf H. destruct (findById id0 st) as [file0|] eqn:H0.
  - rewrite (share_page_found _ _ _ _ H0) in H. cbn in H.
    destruct (decide (id = id0)) as [->|Hne].
    + rewrite lookup_insert_eq in H. unfold findById in H0.
      assert (file0 = file) as -> by congruence.
      destruct (past_expiry now file); by injection H as <-.
    + rewrite lookup_insert_ne in H by done.
      assert (file' = file) as -> by congruence. done.
  - unfold share_page in H. rewrite H0 in H. cbn in H.
    assert (file' = file) as -> by congruence. done.
Qed.

(** What a download hands to [save]: the document marked expired, or the
    document with one download counted, the latter only under quota. *)
Lemma download_loaded_saved now req disk file res cur :
  download_loaded now req disk file = (res, Some cur) ->
  cur = set_status expired file
  \/ (downloads file < maxDownloads file /\ cur = count_download now req file).
Proof.
  unfold download_loaded. intros H.
  repeat (case_match; simplify_eq); auto.
  right. split; [lia|done].
Qed.

Lemma download_document now req st id file file' :
  files st !! id = Some file ->
  files (download now req st).2 !! id = Some file' ->
  maxDownloads file' = maxDownloads file
  /\ (not_counted file file'
      \/ (downloads file < maxDownloads file /\ counted_once file file')).
Proof.
  intros Hf H. destruct (findById (dl_id req) st) as [file0|] eqn:H0.
  - rewrite (download_found _ _ _ _ H0) in H. cbn [snd] in H.
    destruct (download_loaded now req (uploads st) file0) as [res [cur|]] eqn:Hd;
      cbn [snd] in H.
    + cbn in H. destruct (decide (id = dl_id req)) as [->|Hne].
      * rewrite lookup_insert_eq in H. injection H as <-.
        unfold findById in H0. assert (file0 = file) as -> by congruence.
        apply download_loaded_saved in Hd as [->|[Hlt ->]]; [by split; [|left]|].
        destruct (count_download_fields now req file)
          as (Hdl & Hh & _ & _ & _ & Hmax & _).
        split; [done|]. right. split; [done|]. split; [done|]. by eexists.
      * rewrite lookup_insert_ne in H by done.
        assert (file' = file) as -> by congruence. by split; [|left].
    + assert (file' = file) as -> by congruence. by split; [|left].
  - rewrite (download_missing _ _ _ H0) in H. cbn in H.
    assert (file' = file) as -> by congruence. by split; [|left].
Qed.

Lemma cleanup_document now st id file file' :
  files st !! id = Some file ->
  files (cleanup now st) !! id = Some file' ->
  maxDownloads file' = maxDownloads file /\ not_counted file file'.
Proof.
  intros Hf H. rewrite cleanup_lookup, Hf in H. cbn in H.
  injection H as <-. by destruct (cleanup_query now file).
Qed.

Lemma cleanup_no_new_document now st id :
  files st !! id = None -> files (cleanup now st) !! id = None.
Proof. intros Hf. by rewrite cleanup_lookup, Hf. Qed.

(** The effect of any request on the document stored under one id. *)
Lemma handle_document now r st id file' :
  files (handle now r st) !! id = Some file' ->
  match files st !! id with
  | Some file =>
      maxDownloads file' = maxDownloads file
      /\ (not_counted file file'
          \/ (downloads file < maxDownloads file /\ counted_once file file'))
  | None => freshly_created file'
  end.
Proof.
  intros H. destruct r as [req|id0|req|]; cbn [handle] in H.
  - apply upload_document in H as [H|[H Hfresh]]; rewrite H; [|done].
    by split; [|left].
  - destruct (files st !! id) as [file|] eqn:Hf.
    + destruct (share_page_document _ _ _ _ _ _ Hf H). by split; [|left].
    + exfalso. destruct (findById id0 st) as [file0|] eqn:H0.
      * rewrite (share_page_found _ _ _ _ H0) in H. cbn in H.
        unfold findById in H0.
        destruct (decide (id = id0)) as [->|Hne]; [congruence|].
        rewrite lookup_insert_ne in H by done. congruence.
      * unfold share_page in H. rewrite H0 in H. cbn in H. congruence.
  - destruct (files st !! id) as [file|] eqn:Hf.
    + by eapply download_document.
    + exfalso. destruct (findById (dl_id req) st) as [file0|] eqn:H0.
      * rewrite (download_found _ _ _ _ H0) in H. cbn [snd] in H.
        unfold findById in H0.
        destruct (download_loaded now req (uploads st) file0) as [res [cur|]];
          cbn in H; [|congruence].
        destruct (decide (id = dl_id req)) as [->|Hne]; [congruence|].
        rewrite lookup_insert_ne in H by done. congruence.
      * rewrite (download_missing _ _ _ H0) in H. cbn in H. congruence.
  - destruct (files st !! id) as [file|] eqn:Hf.
    + destruct (cleanup_document _ _ _ _ _ Hf H). by split; [|left].
    + rewrite (cleanup_no_new_document _ _ _ Hf) in H. discriminate H.
Qed.

(** ** Invariants along sequential executions *)

Lemma freshly_created_invariants file :
  freshly_created file -> within_quota file /\ log_matches_counter file.
Proof.
  intros (Hd & Hm & Hh). unfold within_quota, log_matches_counter.
  rewrite Hd, Hh. cbn. lia.
Qed.

Lemma handle_invariants now r st :
  all_files (fun f => within_quota f /\ log_matches_counter f) st ->
  all_files (fun f => within_quota f /\ log_matches_counter f) (handle now r st).
Proof.
  intros Hst id file' H. apply handle_document in H.
  destruct (files st !! id) as [file|] eqn:Hf; [|by apply freshly_created_invariants].
  destruct (Hst _ _ Hf) as [Hq Hl]. unfold within_quota, log_matches_counter in *.
  destruct H as [Hmax [[Hd Hh]|[Hlt [Hd [e Hh]]]]]; rewrite Hmax, Hd, Hh.
  - done.
  - rewrite length_app. cbn. lia.
Qed.

Lemma run_invariants trace st :
  all_files (fun f => within_quota f /\ log_matches_counter f) st ->
  all_files (fun f => within_quota f /\ log_matches_counter f) (run trace st).
Proof.
  revert st. induction trace as [|[now r] trace IH]; intros st Hst; [done|].
  cbn. apply IH. by apply handle_invariants.
Qed.

(** ** The download route, branch by branch *)

Section Download.
Variables (now : Z) (req : DownloadReq) (st : State) (file : File).
Hypothesis Hfound : findById (dl_id req) st = Some file.

Lemma download_expired :
  past_expiry now file = true ->
  download now req st =
    (file_has_expired,
     with_files (<[dl_id req := set_status expired file]> (files st)) st).
Proof.
  intros H. rewrite (download_found _ _ _ _ Hfound).
  unfold download_loaded. by rewrite H.
Qed.

Lemma download_inactive :
  past_expiry now file = false -> status file <> active ->
  download now req st = (file_inactive, st).
Proof.
  intros H Hs. rewrite (download_found _ _ _ _ Hfound).
  unfold download_loaded. by rewrite H, bool_decide_eq_false_2.
Qed.

Lemma download_limit :
  past_expiry now file = false -> status file = active ->
  maxDownloads file <= downloads file ->
  download now req st =
    (limit_reached,
     with_files (<[dl_id req := set_status expired file]> (files st)) st).
Proof.
  intros H Hs Hq. rewrite (download_found _ _ _ _ Hfound).
  unfold download_loaded. rewrite H, bool_decide_eq_true_2 by done. cbn.
  by rewrite (proj2 (Z.leb_le _ _) Hq).
Qed.

Lemma download_rejected :
  past_expiry now file = false -> status file = active ->
  downloads file < maxDownloads file ->
  check_password (dl_password req) file = pw_rejected ->
  download now req st = (invalid_password, st).
Proof.
  intros H Hs Hq Hp. rewrite (download_found _ _ _ _ Hfound).
  unfold download_loaded. rewrite H, bool_decide_eq_true_2 by done. cbn.
  by rewrite (proj2 (Z.leb_gt _ _) Hq), Hp.
Qed.

Lemma download_threw :
  past_expiry now file = false -> status file = active ->
  downloads file < maxDownloads file ->
  check_password (dl_password req) file = pw_threw ->
  download now req st = (download_failed, st).
Proof.
  intros H Hs Hq Hp. rewrite (download_found _ _ _ _ Hfound).
  unfold download_loaded. rewrite H, bool_decide_eq_true_2 by done. cbn.
  by rewrite (proj2 (Z.leb_gt _ _) Hq), Hp.
Qed.

Lemma download_counted :
  past_expiry now file = false -> status file = active ->
  downloads file < maxDownloads file ->
  check_password (dl_password req) file = pw_ok ->
  download now req st =
    (if bool_decide (path file ∈ uploads st)
     then SendFile (path file) (name file) else missing_on_disk,
     with_files (<[dl_id req := count_download now req file]> (files st)) st).
Proof.
  intros H Hs Hq Hp. rewrite (download_found _ _ _ _ Hfound).
  unfold download_loaded. rewrite H, bool_decide_eq_true_2 by done. cbn.
  rewrite (proj2 (Z.leb_gt _ _) Hq), Hp. cbn.
  by destruct (count_download_fields now req file)
    as (_ & _ & _ & _ & _ & _ & _ & -> & ->).
Qed.

(** A download is answered with the file only after it was counted. *)
Lemma download_sent p n :
  (download now req st).1 = SendFile p n ->
  past_expiry now file = false /\ status file = active
  /\ downloads file < maxDownloads file
  /\ (download now req st).2 =
       with_files (<[dl_id req := count_download now req file]> (files st)) st.
Proof.
  destruct (past_expiry now file) eqn:H.
  { rewrite download_expired by done. discriminate. }
  destruct (decide (status file = active)) as [Hs|Hs].
  2: { rewrite download_inactive by done. discriminate. }
  destruct (Z_lt_le_dec (downloads file) (maxDownloads file)) as [Hq|Hq].
  2: { rewrite download_limit by done. discriminate. }
  destruct (check_password (dl_password req) file) eqn:Hp.
  - rewrite download_counted by done. done.
  - rewrite download_rejected by done. discriminate.
  - rewrite download_threw by done. discriminate.
Qed.

End Download.

Lemma download_keeps now req st file :
  findById (dl_id req) st = Some file ->
  exists file', findById (dl_id req) (download now req st).2 = Some file'.
Proof.
  intros Hf. rewrite (download_found _ _ _ _ Hf). cbn [snd].
  destruct (download_loaded now req (uploads st) file).2 as [cur|]; [|by eexists].
  exists cur. unfold findById. cbn. apply lookup_insert_eq.
Qed.

(** ** The quota invariant *)

(** C1 (amended). In every state reached from a store of freshly created
    links (downloads 0, a positive quota) by uploads, downloads, share-page
    views and cleanup runs served one after the other, every document has
    [downloads <= maxDownloads]. A download whose quota check passes
    leaves the counter at most at the quota, and counts exactly one
    download when the password check passes too. A download of a document
    with [downloads >= maxDownloads] never counts and never sends the
    file; it is answered with the limit error when the expiry and status
    checks before the quota check pass. *)
Theorem C1_quota_invariant (trace : list (Z * Request)) (st0 : State) :
  all_files freshly_created st0 ->
  all_files within_quota (run trace st0)
  /\ forall now req file,
      findById (dl_id req) (run trace st0) = Some file ->
      exists file',
        findById (dl_id req) (download now req (run trace st0)).2 = Some file'
        /\ (past_expiry now file = false -> status file = active ->
            downloads file < maxDownloads file ->
            downloads file' <= maxDownloads file'
            /\ (check_password (dl_password req) file = pw_ok ->
                downloads file' = downloads file + 1))
        /\ (maxDownloads file <= downloads file ->
            not_counted file file'
            /\ (forall p n, (download now req (run trace st0)).1 <> SendFile p n)
            /\ (past_expiry now file = false -> status file = active ->
                (download now req (run trace st0)).1 = limit_reached)).
Proof.
  intros Hfresh.
  assert (all_files (fun f => within_quota f /\ log_matches_counter f)
            (run trace st0)) as Hinv.
  { apply run_invariants. intros id f Hf. by apply freshly_created_invariants, (Hfresh id). }
  split; [intros id f Hf; by apply (Hinv id)|].
  intros now req file Hf.
  destruct (download_keeps now req _ _ Hf) as [file' Hf']. exists file'.
  split; [done|].
  pose proof (handle_invariants now (ReqDownload req) _ Hinv _ _ Hf') as [Hq' _].
  split.
  - intros Hx Hs Hq. split; [done|]. intros Hp.
    rewrite (download_counted _ _ _ _ Hf Hx Hs Hq Hp) in Hf'.
    unfold findById in Hf'. cbn in Hf'. rewrite lookup_insert_eq in Hf'.
    injection Hf' as <-. by destruct (count_download_fields now req file) as [-> _].
  - intros Hq. split; [|split].
    + destruct (download_document _ _ _ _ _ _ Hf Hf') as [_ [Hn|[Hlt _]]]; [done|lia].
    + intros p n Hsent. apply (download_sent _ _ _ _ Hf) in Hsent. lia.
    + intros Hx Hs. by rewrite (download_limit _ _ _ _ Hf Hx Hs Hq).
Qed.

(** ** The access log and the counter *)

(** Served one after the other, the requests keep the history and the
    counter together: in every state reached from creation (counter 0,
    empty history) by uploads, downloads, share-page views and cleanup runs,
    the length of [downloadHistory] equals [downloads]; and every request
    either leaves both the counter and the history of a stored document as
    they were, or adds one to the counter and appends one entry to the
    history. *)
Lemma history_length_is_download_count_serially (trace : list (Z * Request))
    (st0 : State) :
  all_files freshly_created st0 ->
  all_files log_matches_counter (run trace st0)
  /\ forall now r id file file',
      files (run trace st0) !! id = Some file ->
      files (handle now r (run trace st0)) !! id = Some file' ->
      not_counted file file' \/ counted_once file file'.
Proof.
  intros Hfresh. split.
  - intros id f Hf. eapply (run_invariants trace st0); [|exact Hf].
    intros id0 f0 Hf0. by apply freshly_created_invariants, (Hfresh id0).
  - intros now r id file file' Hf Hf'.
    apply handle_document in Hf'. rewrite Hf in Hf'.
    destruct Hf' as [_ [Hn|[_ Hc]]]; [by left|by right].
Qed.

(** ** Two downloads in flight *)

(** C2 is about the quota check and the increment as one unit. The route
    has an [await] between them, and there the claim fails: for a link
    with one download left, when the two handlers both read the document
    before either saves, both pass the quota check on the document they
    read and both send the file, while the stored counter ends at the
    quota with two history entries. *)
Theorem C2_interleaved_downloads_both_sent now req1 req2 st file :
  dl_id req2 = dl_id req1 ->
  findById (dl_id req1) st = Some file ->
  maxDownloads file - downloads file = 1 ->
  status file = active ->
  past_expiry now file = false ->
  passwordProtected file = false ->
  path file ∈ uploads st ->
  exists st',
    interleave now reads_before_writes (Arrived req1) (Arrived req2) st
    = (Answered (SendFile (path file) (name file)),
       Answered (SendFile (path file) (name file)), st')
    /\ exists file',
        findById (dl_id req1) st' = Some file'
        /\ downloads file' = maxDownloads file
        /\ downloadHistory file'
           = downloadHistory file ++ [download_event now req1; download_event now req2].
Proof.
  intros Hid Hf Hone Hs Hx Hp Hdisk.
  assert (forall req, download_loaded now req (uploads st) file
          = (SendFile (path file) (name file), Some (count_download now req file)))
    as Hload.
  { intros req. unfold download_loaded.
    rewrite Hx, bool_decide_eq_true_2 by done. cbn.
    rewrite (proj2 (Z.leb_gt _ _)) by lia.
    unfold check_password. rewrite Hp.
    destruct (count_download_fields now req file)
      as (_ & _ & _ & _ & _ & _ & _ & -> & ->).
    by rewrite bool_decide_eq_true_2. }
  unfold reads_before_writes. cbn [interleave advance]. rewrite Hid, Hf.
  change (uploads (save_if ?i ?l ?w st)) with (uploads st).
  rewrite (Hload req1). cbn [save_if].
  replace (uploads (save (dl_id req1) file (count_download now req1 file) st))
    with (uploads st) by reflexivity.
  rewrite (Hload req2). cbn [save_if].
  eexists. split; [reflexivity|].
  unfold save, findById. cbn [files with_files].
  rewrite lookup_alter_eq, lookup_alter_eq. unfold findById in Hf. rewrite Hf. cbn.
  eexists. split; [reflexivity|].
  rewrite persist_same.
  2: { destruct (count_download_fields now req1 file) as (_ & -> & _).
       by apply prefix_app_r. }
  destruct (count_download_fields now req1 file) as (Hd1 & Hh1 & _).
  destruct (count_download_fields now req2 file) as (Hd2 & Hh2 & _).
  cbn [persist downloads downloadHistory]. split.
  - unfold written. case_decide; lia.
  - rewrite Hh1, Hh2, drop_app_length, <- app_assoc. reflexivity.
Qed.

(** Served one after the other, the same two downloads end as the claim
    says: the first is sent, the second meets the limit. *)
Lemma serial_downloads_one_sent now req1 req2 st file :
  dl_id req2 = dl_id req1 ->
  findById (dl_id req1) st = Some file ->
  maxDownloads file - downloads file = 1 ->
  status file = active ->
  past_expiry now file = false ->
  passwordProtected file = false ->
  path file ∈ uploads st ->
  (download now req1 st).1 = SendFile (path file) (name file)
  /\ (download now req2 (download now req1 st).2).1 = limit_reached.
Proof.
  intros Hid Hf Hone Hs Hx Hp Hdisk.
  assert (check_password (dl_password req1) file = pw_ok) as Hpw
    by (unfold check_password; by rewrite Hp).
  rewrite (download_counted _ _ _ _ Hf Hx Hs ltac:(lia) Hpw). cbn [fst snd].
  split; [by rewrite bool_decide_eq_true_2|].
  destruct (count_download_fields now req1 file)
    as (Hd & _ & _ & _ & Hs' & Hm & He & _).
  erewrite download_limit; [done| | | |].
  - unfold findById. cbn. rewrite Hid. apply lookup_insert_eq.
  - unfold past_expiry in *. by rewrite He.
  - congruence.
  - lia.
Qed.

(** A handler that is not interrupted between its read and its save is
    the sequential route. *)
Lemma uninterrupted_is_download now req other st :
  interleave now [true; true] (Arrived req) other st
  = (Answered (download now req st).1, other, (download now req st).2).
Proof.
  cbn [interleave advance]. unfold download.
  destruct (findById (dl_id req) st) as [file|]; [|reflexivity].
  by destruct (download_loaded now req (uploads st) file).
Qed.

(** C8 is about every reachable state. Served one after the other the
    requests keep [downloadHistory] as long as [downloads] is
    ([history_length_is_download_count_serially]); two downloads in flight
    do not. When both handlers read the document before either saves, each
    sets the counter to the value it read plus one and each pushes its own
    entry: the stored counter grows by one and the stored history by two,
    so a document whose history matched its counter no longer does. *)
Theorem C8_interleaved_downloads_unpair_log_and_counter now req1 req2 st file :
  dl_id req2 = dl_id req1 ->
  findById (dl_id req1) st = Some file ->
  log_matches_counter file ->
  status file = active ->
  past_expiry now file = false ->
  downloads file < maxDownloads file ->
  passwordProtected file = false ->
  exists file',
    findById (dl_id req1)
      (interleave now reads_before_writes (Arrived req1) (Arrived req2) st).2
    = Some file'
    /\ downloads file' = downloads file + 1
    /\ downloadHistory file'
       = downloadHistory file ++ [download_event now req1; download_event now req2]
    /\ Z.of_nat (length (downloadHistory file')) = downloads file' + 1
    /\ ~ log_matches_counter file'.
Proof.
  intros Hid Hf Hlog Hs Hx Hq Hp.
  assert (forall req, exists res, download_loaded now req (uploads st) file
          = (res, Some (count_download now req file)))
    as Hload.
  { intros req. unfold download_loaded.
    rewrite Hx, bool_decide_eq_true_2 by done. cbn.
    rewrite (proj2 (Z.leb_gt _ _)) by lia.
    unfold check_password. rewrite Hp. by eexists. }
  destruct (Hload req1) as [res1 H1]. destruct (Hload req2) as [res2 H2].
  unfold reads_before_writes. cbn [interleave advance]. rewrite Hid, Hf.
  change (uploads (save_if ?i ?l ?w st)) with (uploads st).
  rewrite H1. cbn [save_if].
  replace (uploads (save (dl_id req1) file (count_download now req1 file) st))
    with (uploads st) by reflexivity.
  rewrite H2. cbn [save_if snd].
  unfold save, findById. cbn [files with_files].
  rewrite lookup_alter_eq, lookup_alter_eq. unfold findById in Hf. rewrite Hf. cbn.
  eexists. split; [reflexivity|].
  rewrite persist_same.
  2: { destruct (count_download_fields now req1 file) as (_ & -> & _).
       by apply prefix_app_r. }
  destruct (count_download_fields now req1 file) as (Hd1 & Hh1 & _).
  destruct (count_download_fields now req2 file) as (Hd2 & Hh2 & _).
  cbn [persist downloads downloadHistory].
  assert (written (downloads file) (downloads (count_download now req2 file))
            (downloads (count_download now req1 file)) = downloads file + 1) as Hw.
  { unfold written. case_decide; lia. }
  assert (downloadHistory (count_download now req1 file)
          ++ drop (length (downloadHistory file))
               (downloadHistory (count_download now req2 file))
          = downloadHistory file ++ [download_event now req1; download_event now req2])
    as Hh.
  { rewrite Hh1, Hh2, drop_app_length, <- app_assoc. reflexivity. }
  unfold log_matches_counter in *. cbn [persist downloads downloadHistory].
  rewrite Hw, Hh, length_app. cbn [length].
  split; [done|]. split; [done|]. split; lia.
Qed.

(** ** Status after a counted download *)

(** C3 (amended). A download that sends the file stores the document with
    one more download and with the status it had, active, also when the
    counter reaches the quota. The link is marked expired by the next
    download that reaches the quota check: it is answered with the limit
    error and stores status expired. *)
Theorem C3_sent_download_keeps_status now req st file p n :
  findById (dl_id req) st = Some file ->
  (download now req st).1 = SendFile p n ->
  exists file',
    findById (dl_id req) (download now req st).2 = Some file'
    /\ downloads file' = downloads file + 1
    /\ status file' = active
    /\ (downloads file' = maxDownloads file' ->
        forall now' req',
          dl_id req' = dl_id req -> past_expiry now' file' = false ->
          (download now' req' (download now req st).2).1 = limit_reached
          /\ (status <$> findById (dl_id req)
                           (download now' req' (download now req st).2).2)
             = Some expired).
Proof.
  intros Hf Hsent. destruct (download_sent _ _ _ _ Hf _ _ Hsent) as (Hx & Hs & Hq & ->).
  destruct (count_download_fields now req file)
    as (Hd & _ & _ & _ & Hs' & Hm & He & _).
  exists (count_download now req file).
  assert (findById (dl_id req)
            (with_files (<[dl_id req := count_download now req file]> (files st)) st)
          = Some (count_download now req file)) as Hf'.
  { unfold findById. cbn. apply lookup_insert_eq. }
  split; [done|]. split; [done|]. split; [congruence|].
  intros Hfull now' req' Hid Hx'. rewrite <- Hid in Hf' |- *.
  rewrite (download_limit _ _ _ _ Hf' Hx' ltac:(congruence) ltac:(lia)).
  cbn [fst snd]. split; [done|].
  unfold findById. cbn [files with_files].
  by rewrite lookup_insert_eq.
Qed.

(** ** Downloads after the expiry instant *)

Lemma past_expiry_iff now file :
  past_expiry now file = true <-> exists e, expiresAt file = Some e /\ e < now.
Proof.
  unfold past_expiry. destruct (expiresAt file) as [e|].
  - rewrite Z.ltb_lt. split; [by exists e|]. by intros (? & [= <-] & ?).
  - split; [discriminate|]. by intros (? & [=] & _).
Qed.

(** C4 (amended). A download served strictly after [expiresAt] is answered
    with the expired error, whatever the quota, the password and the
    earlier status of the link, and it stores the document with status
    [expired]: that is the one path it writes, no download is counted, the
    other documents and the uploads directory stay as they were. *)
Theorem C4_download_after_expiry now req st file e :
  findById (dl_id req) st = Some file ->
  expiresAt file = Some e ->
  e < now ->
  (download now req st).1 = file_has_expired
  /\ (exists file',
        findById (dl_id req) (download now req st).2 = Some file'
        /\ status file' = expired
        /\ same_link file file'
        /\ not_counted file file'
        /\ shareStats file' = shareStats file)
  /\ (forall id, id <> dl_id req ->
        findById id (download now req st).2 = findById id st)
  /\ uploads (download now req st).2 = uploads st.
Proof.
  intros Hf He Hlt.
  assert (past_expiry now file = true) as Hx.
  { unfold past_expiry. rewrite He. by apply Z.ltb_lt. }
  rewrite (download_expired _ _ _ _ Hf Hx). cbn [fst snd]. unfold findById. cbn.
  split; [done|]. split; [|split; [|done]].
  - exists (set_status expired file). split; [apply lookup_insert_eq|].
    split; [reflexivity|]. split; [|done]. unfold same_link. cbn. done.
  - intros id Hne. by rewrite lookup_insert_ne.
Qed.

(** ** The password check *)

(** C5. On a password-protected link with a stored hash that is active,
    not past its expiry and under quota, a download whose password is
    missing, empty or rejected by [bcrypt.compare] is answered with the
    invalid-password error and leaves the whole state as it was: nothing
    is saved. *)
Theorem C5_wrong_password_changes_nothing now req st file h :
  findById (dl_id req) st = Some file ->
  passwordProtected file = true ->
  passwordHash file = Some h ->
  status file = active ->
  past_expiry now file = false ->
  downloads file < maxDownloads file ->
  (truthy (dl_password req) = false
   \/ exists pw, dl_password req = Some pw /\ bcrypt_compare pw h = false) ->
  download now req st = (invalid_password, st).
Proof.
  intros Hf Hp Hh Hs Hx Hq Hpw.
  apply (download_rejected _ _ _ _ Hf Hx Hs Hq).
  unfold check_password. rewrite Hp, Hh.
  destruct Hpw as [Hno|(pw & -> & Hcmp)].
  - destruct (dl_password req) as [pw|]; [|done]. by rewrite Hno.
  - rewrite Hcmp. by destruct (truthy (Some pw)).
Qed.

(** ** Issuance *)

(** C6 (amended). An upload that carries a file and an expiry
    specification, served with the clock at or after the epoch. When no
    digit of the specification is immediately followed by one of [h], [d],
    [w], [m], the upload is answered with success and the new link expires
    24 hours after [now] (as long as that instant is a date at all). When
    the specification is a token, a decimal numeral followed by a unit
    letter, the instant [now] plus the number times the length of the unit
    (an hour, a day, seven days, thirty days, in milliseconds) decides: if
    it is within the range of a [Date], the upload is answered with success
    and the new link expires at that instant; if it is beyond, the upload
    is answered with 500 and no document is stored. *)
Theorem C6_expiry_of_issued_link now req st f spec :
  up_file req = Some f ->
  up_expiresIn req = Some spec ->
  0 <= now ->
  (no_duration_token spec ->
   now + 86400000 <= 8640000000000000 ->
   issued (upload now req st) st f (now + 86400000))
  /\ (forall (d : Decimal.uint) (unit : ascii) (len : Z),
        spec = numeral d +:+ String unit "" ->
        d <> Decimal.Nil ->
        In (unit, len)
          [("h"%char, 3600000); ("d"%char, 86400000); ("w"%char, 604800000);
           ("m"%char, 2592000000)] ->
        (now + Z.of_uint d * len <= 8640000000000000 ->
         issued (upload now req st) st f (now + Z.of_uint d * len))
        /\ (8640000000000000 < now + Z.of_uint d * len ->
            (upload now req st).1 = Json 500 "Upload failed"
            /\ files (upload now req st).2 = files st)).
Proof.
  intros Hfile Hspec Hnow.
  assert (forall t, calculateExpirationDate now spec = Some t ->
            issued (upload now req st) st f t) as Hissued.
  { intros t Ht. exists (fresh (dom (files st))), (new_file (up_created req) f req spec t).
    unfold upload. rewrite Hfile, Hspec.
    change (default "24h" (Some spec)) with spec. rewrite Ht.
    cbn [fst snd files with_files with_uploads].
    split; [done|]. split; [apply not_elem_of_dom, is_fresh|].
    split; [apply lookup_insert_eq|]. done. }
  split.
  - intros Hno Hrange. apply Hissued.
    rewrite (calculateExpirationDate_fallback _ _ (no_duration_token_no_match _ Hno)).
    apply new_Date_in_range. unfold max_time. lia.
  - intros d unit len -> Hd Hunit.
    pose proof (N2Z.is_nonneg (Pos.of_uint d)) as Hpos.
    change (Z.of_N (Pos.of_uint d)) with (Z.of_uint d) in Hpos.
    assert (0 < len) as Hlen by (eapply timeUnits_positive, timeUnits_listed, Hunit).
    assert (calculateExpirationDate now (numeral d +:+ String unit "")
            = new_Date (now + Z.of_uint d * len)) as Hcalc.
    { rewrite <- decimal_numeral. apply calculateExpirationDate_token.
      - apply numeral_all_digits.
      - by apply numeral_nonempty.
      - by apply timeUnits_listed. }
    split.
    + intros Hrange. apply Hissued. rewrite Hcalc.
      apply new_Date_in_range. unfold max_time. nia.
    + intros Hbeyond. unfold upload. rewrite Hfile, Hspec.
      change (default "24h" (Some (numeral d +:+ String unit "")))
        with (numeral d +:+ String unit "").
      rewrite Hcalc, new_Date_beyond by (unfold max_time; lia).
      done.
Qed.

(** ** The cleanup job *)

(** C7. One run of the cleanup job at [now] gives status [expired] to
    exactly the documents that are active with [expiresAt <= now], and
    changes no other path of them; every other document, and the set of
    stored ids, stays as it was. Running the job a second time at the same
    instant changes nothing. *)
Theorem C7_cleanup_selective_and_idempotent now st :
  (forall id file e,
      files st !! id = Some file ->
      status file = active -> expiresAt file = Some e -> e <= now ->
      exists file',
        files (cleanup now st) !! id = Some file'
        /\ status file' = expired
        /\ same_link file file'
        /\ not_counted file file'
        /\ shareStats file' = shareStats file)
  /\ (forall id file,
        files st !! id = Some file ->
        ~ (status file = active /\ exists e, expiresAt file = Some e /\ e <= now) ->
        files (cleanup now st) !! id = Some file)
  /\ (forall id, files st !! id = None -> files (cleanup now st) !! id = None)
  /\ cleanup now (cleanup now st) = cleanup now st.
Proof.
  split; [|split; [|split]].
  - intros id file e Hf Hs He Hle. exists (set_status expired file).
    split.
    + rewrite cleanup_lookup, Hf. cbn.
      unfold cleanup_query. rewrite He, bool_decide_eq_true_2 by done.
      by rewrite (proj2 (Z.leb_le _ _) Hle).
    + split; [reflexivity|]. split; [|done]. unfold same_link. cbn. done.
  - intros id file Hf Hno. rewrite cleanup_lookup, Hf. cbn.
    destruct (cleanup_query now file) eqn:Hq; [|done].
    exfalso. apply Hno. unfold cleanup_query in Hq.
    apply andb_prop in Hq as [Hs Hq]. apply bool_decide_eq_true in Hs.
    destruct (expiresAt file) as [e|]; [|discriminate Hq].
    split; [done|]. exists e. split; [done|]. by apply Z.leb_le.
  - apply cleanup_no_new_document.
  - unfold cleanup at 1. by rewrite find_after_cleanup.
Qed.

(** ** Content missing from disk *)

(** C9. When the expiry, status, quota and password checks of a download
    all pass and the content is not on disk, the answer is the
    missing-on-disk error, and the stored document already has the
    download counted: the counter is one higher, the history has the new
    entry, and the share statistics are updated. *)
Theorem C9_missing_content_still_counted now req st file :
  findById (dl_id req) st = Some file ->
  past_expiry now file = false ->
  status file = active ->
  downloads file < maxDownloads file ->
  check_password (dl_password req) file = pw_ok ->
  path file ∉ uploads st ->
  (download now req st).1 = missing_on_disk
  /\ exists file',
      findById (dl_id req) (download now req st).2 = Some file'
      /\ downloads file' = downloads file + 1
      /\ downloadHistory file' = downloadHistory file ++ [download_event now req]
      /\ totalViews (shareStats file') = totalViews (shareStats file) + 1
      /\ peakDownloads (shareStats file')
         = Z.max (peakDownloads (shareStats file)) (downloads file + 1).
Proof.
  intros Hf Hx Hs Hq Hp Hdisk.
  rewrite (download_counted _ _ _ _ Hf Hx Hs Hq Hp). cbn [fst snd].
  split; [by rewrite bool_decide_eq_false_2|].
  exists (count_download now req file).
  split; [unfold findById; cbn; apply lookup_insert_eq|].
  by destruct (count_download_fields now req file) as (? & ? & ? & ? & _).
Qed.

(** ** Links without an expiry date *)

(** C10 (amended). A document without [expiresAt] is never treated as
    expired. At every instant the expiry test of the download route is
    false and the answer is not the expired error; the download ends in
    exactly one of these ways: turned away by the status check, by the
    quota check (which stores status [expired]) or by the password check
    (with 401, or with 500 when the check throws), all three leaving the
    counter alone; or, the three checks passed, counted and then answered
    with the file, or with the missing-on-disk error when the content is
    not on disk. No run of the cleanup job selects or changes the
    document. *)
Theorem C10_no_expiry_date_never_expires req st file :
  findById (dl_id req) st = Some file ->
  expiresAt file = None ->
  forall now,
    past_expiry now file = false
    /\ (download now req st).1 <> file_has_expired
    /\ ((status file <> active
         /\ download now req st = (file_inactive, st))
        \/ (status file = active /\ maxDownloads file <= downloads file
            /\ (download now req st).1 = limit_reached
            /\ exists file',
                findById (dl_id req) (download now req st).2 = Some file'
                /\ status file' = expired /\ not_counted file file')
        \/ (status file = active /\ downloads file < maxDownloads file
            /\ check_password (dl_password req) file = pw_rejected
            /\ download now req st = (invalid_password, st))
        \/ (status file = active /\ downloads file < maxDownloads file
            /\ check_password (dl_password req) file = pw_threw
            /\ download now req st = (download_failed, st))
        \/ (status file = active /\ downloads file < maxDownloads file
            /\ check_password (dl_password req) file = pw_ok
            /\ (path file ∉ uploads st)
            /\ (download now req st).1 = missing_on_disk
            /\ findById (dl_id req) (download now req st).2
               = Some (count_download now req file))
        \/ (status file = active /\ downloads file < maxDownloads file
            /\ check_password (dl_password req) file = pw_ok
            /\ path file ∈ uploads st
            /\ (download now req st).1 = SendFile (path file) (name file)
            /\ findById (dl_id req) (download now req st).2
               = Some (count_download now req file)))
    /\ cleanup_query now file = false
    /\ files (cleanup now st) !! dl_id req = Some file.
Proof.
  intros Hf He now.
  assert (past_expiry now file = false) as Hx
    by (unfold past_expiry; by rewrite He).
  assert (cleanup_query now file = false) as Hq.
  { unfold cleanup_query. rewrite He. apply andb_false_r. }
  assert (forall cur,
            findById (dl_id req) (with_files (<[dl_id req := cur]> (files st)) st)
            = Some cur) as Hstored.
  { intros cur. unfold findById. cbn. apply lookup_insert_eq. }
  assert ((status file <> active
         /\ download now req st = (file_inactive, st))
        \/ (status file = active /\ maxDownloads file <= downloads file
            /\ (download now req st).1 = limit_reached
            /\ exists file',
                findById (dl_id req) (download now req st).2 = Some file'
                /\ status file' = expired /\ not_counted file file')
        \/ (status file = active /\ downloads file < maxDownloads file
            /\ check_password (dl_password req) file = pw_rejected
            /\ download now req st = (invalid_password, st))
        \/ (status file = active /\ downloads file < maxDownloads file
            /\ check_password (dl_password req) file = pw_threw
            /\ download now req st = (download_failed, st))
        \/ (status file = active /\ downloads file < maxDownloads file
            /\ check_password (dl_password req) file = pw_ok
            /\ (path file ∉ uploads st)
            /\ (download now req st).1 = missing_on_disk
            /\ findById (dl_id req) (download now req st).2
               = Some (count_download now req file))
        \/ (status file = active /\ downloads file < maxDownloads file
            /\ check_password (dl_password req) file = pw_ok
            /\ path file ∈ uploads st
            /\ (download now req st).1 = SendFile (path file) (name file)
            /\ findById (dl_id req) (download now req st).2
               = Some (count_download now req file))) as Hcases.
  { destruct (decide (status file = active)) as [Hs|Hs].
    2: { left. split; [done|]. by apply (download_inactive _ _ _ _ Hf). }
    right. destruct (Z_lt_le_dec (downloads file) (maxDownloads file)) as [Hlt|Hle].
    2: { left. split; [done|]. split; [done|].
         rewrite (download_limit _ _ _ _ Hf Hx Hs Hle). cbn [fst snd].
         split; [done|]. exists (set_status expired file).
         split; [apply Hstored|]. split; [reflexivity|done]. }
    right. destruct (check_password (dl_password req) file) eqn:Hp.
    - right. right.
      rewrite (download_counted _ _ _ _ Hf Hx Hs Hlt Hp). cbn [fst snd].
      destruct (decide (path file ∈ uploads st)) as [Hd|Hd].
      + right. rewrite bool_decide_eq_true_2 by done. by rewrite Hstored.
      + left. rewrite bool_decide_eq_false_2 by done. by rewrite Hstored.
    - left. split; [done|]. split; [done|]. split; [done|].
      by apply (download_rejected _ _ _ _ Hf).
    - right. left. split; [done|]. split; [done|]. split; [done|].
      by apply (download_threw _ _ _ _ Hf). }
  split; [done|]. split; [|split; [exact Hcases|split; [done|]]].
  - destruct Hcases as [[_ ->]|[(_ & _ & -> & _)|[(_ & _ & _ & ->)|[(_ & _ & _ & ->)
      |[(_ & _ & _ & _ & -> & _)|(_ & _ & _ & _ & -> & _)]]]]]; done.
  - unfold findById in Hf. by rewrite cleanup_lookup, Hf; cbn; rewrite Hq.
Qed.

(** ** The life of a stored document *)

Lemma same_link_refl f : same_link f f.
Proof. unfold same_link. done. Qed.

Lemma evolves_refl f : evolves f f.
Proof. unfold evolves. split; [apply same_link_refl|]. repeat split; auto; lia. Qed.

Lemma evolves_trans f g h : evolves f g -> evolves g h -> evolves f h.
Proof.
  intros (Hs1 & Hd1 & Hh1 & Ht1 & Hv1 & Hp1) (Hs2 & Hd2 & Hh2 & Ht2 & Hv2 & Hp2).
  split; [|split; [|split; [|split; [|split]]]].
  - unfold same_link in *. destruct_and!. repeat split; congruence.
  - lia.
  - by etrans.
  - destruct Ht2 as [-> | ->]; auto.
  - lia.
  - lia.
Qed.

Lemma set_status_evolves f : evolves f (set_status expired f).
Proof.
  split; [unfold same_link; done|]. cbn. repeat split; auto; lia.
Qed.

Lemma view_evolves f :
  evolves f (set_totalViews (totalViews (shareStats f) + 1) f).
Proof.
  split; [unfold same_link; done|]. cbn. repeat split; auto; lia.
Qed.

Lemma count_download_evolves now req f : evolves f (count_download now req f).
Proof.
  unfold count_download. cbn.
  destruct (peakDownloads (shareStats f) <? downloads f + 1) eqn:Hpk;
    (split; [unfold same_link; done|]); cbn;
    (split; [lia|]); (split; [by apply prefix_app_r|]);
    (split; [by left|]); split; lia.
Qed.

Lemma download_other now req st id :
  id <> dl_id req -> files (download now req st).2 !! id = files st !! id.
Proof.
  intros Hne. destruct (findById (dl_id req) st) as [file|] eqn:Hf.
  - rewrite (download_found _ _ _ _ Hf). cbn [snd].
    destruct (download_loaded now req (uploads st) file).2; [|done].
    cbn. by rewrite lookup_insert_ne.
  - by rewrite (download_missing _ _ _ Hf).
Qed.

Lemma share_page_other now id0 st id :
  id <> id0 -> files (share_page now id0 st).2 !! id = files st !! id.
Proof.
  intros Hne. destruct (findById id0 st) as [file|] eqn:Hf.
  - rewrite (share_page_found _ _ _ _ Hf). cbn. by rewrite lookup_insert_ne.
  - unfold share_page. by rewrite Hf.
Qed.

Lemma upload_keeps now req st id file :
  files st !! id = Some file -> files (upload now req st).2 !! id = Some file.
Proof.
  intros Hf. unfold upload. destruct (up_file req) as [f|]; [|done].
  destruct (calculateExpirationDate now _) as [expAt|]; [|done].
  cbn. rewrite lookup_insert_ne; [done|].
  intros Heq. pose proof (is_fresh (dom (files st))) as Hfresh.
  rewrite Heq in Hfresh. apply Hfresh. apply elem_of_dom. by eexists.
Qed.

(** One request on one stored document. *)
Lemma handle_evolves now r st id file :
  files st !! id = Some file ->
  exists file', files (handle now r st) !! id = Some file' /\ evolves file file'.
Proof.
  intros Hf. destruct r as [req|id0|req|]; cbn [handle].
  - exists file. split; [by apply upload_keeps|apply evolves_refl].
  - destruct (decide (id = id0)) as [->|Hne].
    + rewrite (share_page_found _ _ _ _ Hf). cbn. rewrite lookup_insert_eq.
      eexists. split; [done|].
      destruct (past_expiry now file); [apply set_status_evolves|apply view_evolves].
    + exists file. rewrite share_page_other by done. split; [done|apply evolves_refl].
  - destruct (decide (id = dl_id req)) as [->|Hne].
    + rewrite (download_found _ _ _ _ Hf). cbn [snd].
      destruct (download_loaded now req (uploads st) file) as [res [cur|]] eqn:Hd;
        cbn [snd].
      * cbn. rewrite lookup_insert_eq. exists cur. split; [done|].
        apply download_loaded_saved in Hd as [->|[_ ->]];
          [apply set_status_evolves|apply count_download_evolves].
      * exists file. split; [done|apply evolves_refl].
    + exists file. rewrite download_other by done. split; [done|apply evolves_refl].
  - rewrite cleanup_lookup, Hf. cbn. eexists. split; [done|].
    destruct (cleanup_query now file); [apply set_status_evolves|apply evolves_refl].
Qed.

Lemma run_evolves trace st id file :
  files st !! id = Some file ->
  exists file', files (run trace st) !! id = Some file' /\ evolves file file'.
Proof.
  revert st file. induction trace as [|[now r] trace IH]; intros st file Hf.
  - exists file. split; [done|apply evolves_refl].
  - cbn. destruct (handle_evolves now r st id file Hf) as (g & Hg & Hfg).
    destruct (IH _ _ Hg) as (h & Hh & Hgh).
    exists h. split; [done|]. by eapply evolves_trans.
Qed.

(** No sequential execution removes a stored document or changes the paths
    that describe the link: name, size, storage path, creation and expiry
    dates, password protection and hash, quota, type, uploader, visibility. *)
Theorem documents_are_kept_and_descriptions_fixed trace st id file :
  files st !! id = Some file ->
  exists file', files (run trace st) !! id = Some file' /\ same_link file file'.
Proof.
  intros Hf. destruct (run_evolves trace st id file Hf) as (file' & Hf' & Hs & _).
  by exists file'.
Qed.

(** Along a sequential execution the download counter of a document never
    decreases and its history only grows at the end: the earlier history is
    a prefix of the later one. *)
Theorem counter_and_history_only_grow trace st id file file' :
  files st !! id = Some file ->
  files (run trace st) !! id = Some file' ->
  downloads file <= downloads file'
  /\ downloadHistory file `prefix_of` downloadHistory file'.
Proof.
  intros Hf Hf'. destruct (run_evolves trace st id file Hf) as (g & Hg & _ & Hd & Hh & _).
  assert (g = file') as -> by congruence. done.
Qed.

(** The only status a request writes is expired: along a sequential
    execution a document keeps its status or becomes expired, so an expired
    document stays expired and no document becomes active again. *)
Theorem status_only_moves_to_expired trace st id file file' :
  files st !! id = Some file ->
  files (run trace st) !! id = Some file' ->
  (status file' = status file \/ status file' = expired)
  /\ (status file = expired -> status file' = expired)
  /\ (status file' = active -> status file = active).
Proof.
  intros Hf Hf'.
  destruct (run_evolves trace st id file Hf) as (g & Hg & _ & _ & _ & Ht & _).
  assert (g = file') as -> by congruence.
  split; [done|]. split.
  - intros He. destruct Ht as [-> | ->]; done.
  - intros Ha. destruct Ht as [<-|Ht]; [done|congruence].
Qed.

(** The document stored under an id after one request, case by case. *)
Lemma handle_cases now r st id file' :
  files (handle now r st) !! id = Some file' ->
  match files st !! id with
  | None => exists at_ f req expIn expAt, file' = new_file at_ f req expIn expAt
  | Some file =>
      file' = file
      \/ file' = set_status expired file
      \/ file' = set_totalViews (totalViews (shareStats file) + 1) file
      \/ (downloads file < maxDownloads file
          /\ exists at_ req, file' = count_download at_ req file)
  end.
Proof.
  intros H. destruct (files st !! id) as [file|] eqn:Hf.
  - destruct r as [req|id0|req|]; cbn [handle] in H.
    + rewrite (upload_keeps _ _ _ _ _ Hf) in H. left. congruence.
    + destruct (decide (id = id0)) as [->|Hne].
      * rewrite (share_page_found _ _ _ _ Hf) in H. cbn in H.
        rewrite lookup_insert_eq in H. injection H as <-.
        destruct (past_expiry now file); auto.
      * rewrite share_page_other in H by done. left. congruence.
    + destruct (decide (id = dl_id req)) as [->|Hne].
      * rewrite (download_found _ _ _ _ Hf) in H. cbn [snd] in H.
        destruct (download_loaded now req (uploads st) file) as [res [cur|]] eqn:Hd;
          cbn [snd] in H.
        -- cbn in H. rewrite lookup_insert_eq in H. injection H as <-.
           apply download_loaded_saved in Hd as [->|[Hlt ->]]; [auto|].
           do 3 right. split; [done|]. by exists now, req.
        -- left. congruence.
      * rewrite download_other in H by done. left. congruence.
    + rewrite cleanup_lookup, Hf in H. cbn in H. injection H as <-.
      destruct (cleanup_query now file); auto.
  - destruct r as [req|id0|req|]; cbn [handle] in H.
    + unfold upload in H. destruct (up_file req) as [f|]; [|cbn in H; congruence].
      destruct (calculateExpirationDate now _) as [expAt|]; [|cbn in H; congruence].
      cbn in H. destruct (decide (id = fresh (dom (files st)))) as [->|Hne].
      * rewrite lookup_insert_eq in H. injection H as <-. by do 5 eexists.
      * rewrite lookup_insert_ne in H by done. congruence.
    + destruct (decide (id = id0)) as [->|Hne].
      * unfold share_page, findById in H. rewrite Hf in H. cbn in H. congruence.
      * rewrite share_page_other in H by done. congruence.
    + destruct (decide (id = dl_id req)) as [->|Hne].
      * rewrite (download_missing _ _ _ Hf) in H. cbn in H. congruence.
      * rewrite download_other in H by done. congruence.
    + rewrite cleanup_lookup, Hf in H. discriminate H.
Qed.

(** An invariant of single documents that new documents have and the four
    writes keep holds in every state of a sequential execution. *)
Lemma run_invariant (P : File -> Prop) :
  (forall at_ f req expIn expAt, P (new_file at_ f req expIn expAt)) ->
  (forall f, P f -> P (set_status expired f)) ->
  (forall f, P f -> P (set_totalViews (totalViews (shareStats f) + 1) f)) ->
  (forall at_ req f, P f -> downloads f < maxDownloads f ->
                     P (count_download at_ req f)) ->
  forall trace st, all_files P st -> all_files P (run trace st).
Proof.
  intros Hnew Hexp Hview Hcount.
  induction trace as [|[now r] trace IH]; intros st Hst; [done|].
  cbn. apply IH. intros id file' H. apply handle_cases in H.
  destruct (files st !! id) as [file|] eqn:Hf.
  - pose proof (Hst _ _ Hf) as HP.
    destruct H as [->|[->|[->|[Hlt (at_ & req & ->)]]]]; auto.
  - destruct H as (at_ & f & req & expIn & expAt & ->). apply Hnew.
Qed.

(** ** What the counter counts *)

(** The answers that come after the commit block are given only to a
    download that passed every check, and the document is then stored with
    the download counted. *)
Lemma download_committed now req st file :
  findById (dl_id req) st = Some file ->
  counted_answer (download now req st).1 = true ->
  past_expiry now file = false /\ status file = active
  /\ downloads file < maxDownloads file
  /\ (download now req st).2 =
       with_files (<[dl_id req := count_download now req file]> (files st)) st.
Proof.
  intros Hf.
  destruct (past_expiry now file) eqn:H.
  { rewrite (download_expired _ _ _ _ Hf H). discriminate. }
  destruct (decide (status file = active)) as [Hs|Hs].
  2: { rewrite (download_inactive _ _ _ _ Hf H Hs). discriminate. }
  destruct (Z_lt_le_dec (downloads file) (maxDownloads file)) as [Hq|Hq].
  2: { rewrite (download_limit _ _ _ _ Hf H Hs Hq). discriminate. }
  destruct (check_password (dl_password req) file) eqn:Hp.
  - by rewrite (download_counted _ _ _ _ Hf H Hs Hq Hp).
  - rewrite (download_rejected _ _ _ _ Hf H Hs Hq Hp). discriminate.
  - rewrite (download_threw _ _ _ _ Hf H Hs Hq Hp). discriminate.
Qed.

Lemma download_counter now req st file :
  findById (dl_id req) st = Some file ->
  exists file',
    files (download now req st).2 !! dl_id req = Some file'
    /\ downloads file' =
       downloads file + (if counted_answer (download now req st).1 then 1 else 0).
Proof.
  intros Hf. destruct (counted_answer (download now req st).1) eqn:Hc.
  - destruct (download_committed _ _ _ _ Hf Hc) as (_ & _ & _ & ->).
    exists (count_download now req file). cbn. rewrite lookup_insert_eq.
    split; [done|]. by destruct (count_download_fields now req file) as [-> _].
  - destruct (download_keeps now req _ _ Hf) as [file' Hf']. exists file'.
    split; [done|].
    rewrite (download_found _ _ _ _ Hf) in Hf', Hc. cbn [fst snd] in Hf', Hc.
    destruct (download_loaded now req (uploads st) file) as [res [cur|]] eqn:Hd;
      cbn [fst snd] in Hf', Hc; unfold findById in Hf'.
    + cbn in Hf'. rewrite lookup_insert_eq in Hf'. injection Hf' as <-.
      unfold download_loaded in Hd.
      repeat (case_match; simplify_eq); try (cbn; lia);
        exfalso; cbn in Hc; discriminate Hc.
    + unfold findById in Hf. assert (file' = file) as -> by congruence. lia.
Qed.

Lemma run_counter trace st id file :
  files st !! id = Some file ->
  exists file',
    files (run trace st) !! id = Some file'
    /\ downloads file' = downloads file + downloads_answered counted_answer id trace st.
Proof.
  revert st file. induction trace as [|[now r] trace IH]; intros st file Hf.
  - exists file. cbn. split; [done|lia].
  - cbn [run foldl downloads_answered].
    assert (exists g, files (handle now r st) !! id = Some g
              /\ downloads g = downloads file
                 + match r with
                   | ReqDownload req =>
                       if bool_decide (dl_id req = id)
                          && counted_answer (download now req st).1
                       then 1 else 0
                   | _ => 0
                   end) as (g & Hg & Hdg).
    { destruct r as [req|id0|req|]; cbn [handle].
      - exists file. split; [by apply upload_keeps|lia].
      - destruct (handle_evolves now (ReqSharePage id0) st id file Hf)
          as (g & Hg & _).
        exists g. split; [done|].
        destruct (share_page_document _ _ _ _ _ _ Hf Hg) as [_ [-> _]]. lia.
      - destruct (decide (dl_id req = id)) as [<-|Hne].
        + rewrite bool_decide_eq_true_2 by done. cbn [andb].
          by apply download_counter.
        + rewrite bool_decide_eq_false_2 by done. cbn [andb].
          exists file. rewrite download_other by done. split; [done|lia].
      - destruct (handle_evolves now Cron st id file Hf) as (g & Hg & _).
        exists g. split; [done|].
        destruct (cleanup_document _ _ _ _ _ Hf Hg) as [_ [-> _]]. lia. }
    destruct (IH _ _ Hg) as (file' & Hf' & Hd'). exists file'.
    split; [done|]. cbn [run] in Hd'. lia.
Qed.

(** Along a sequential execution the counter of a document grows by exactly
    the number of downloads of its id that were answered with the file or
    with the missing-on-disk error. *)
Theorem counter_counts_committed_downloads trace st id file :
  files st !! id = Some file ->
  exists file',
    files (run trace st) !! id = Some file'
    /\ downloads file' = downloads file + downloads_answered counted_answer id trace st.
Proof. apply run_counter. Qed.

Lemma downloads_answered_le (id : string) trace st :
  0 <= downloads_answered delivered_answer id trace st
       <= downloads_answered counted_answer id trace st.
Proof.
  revert st. induction trace as [|[now r] trace IH]; intros st; [done|].
  cbn [downloads_answered]. specialize (IH (handle now r st)).
  destruct r as [req|id0|req|]; try lia.
  cbn [handle] in *.
  destruct (bool_decide (dl_id req = id)); cbn [andb]; [|lia].
  destruct ((download now req st).1); cbn [delivered_answer counted_answer];
    try case_bool_decide; lia.
Qed.

Lemma run_within_quota trace st id file file' :
  files st !! id = Some file -> within_quota file ->
  files (run trace st) !! id = Some file' ->
  within_quota file' /\ maxDownloads file' = maxDownloads file.
Proof.
  revert st file. induction trace as [|[now r] trace IH]; intros st file Hf Hq Hf'.
  - cbn in Hf'. assert (file' = file) as -> by congruence. done.
  - cbn in Hf'. destruct (handle_evolves now r st id file Hf) as (g & Hg & _).
    pose proof (handle_document now r st id g Hg) as Hdoc. rewrite Hf in Hdoc.
    destruct Hdoc as [Hmax Hcnt].
    assert (within_quota g) as Hqg.
    { unfold within_quota in *. destruct Hcnt as [[-> _]|[Hlt [-> _]]]; lia. }
    destruct (IH _ _ Hg Hqg Hf') as [? ?]. split; [done|congruence].
Qed.

(** In a sequential execution a document under quota is delivered at most
    as many times as its quota has downloads left. *)
Theorem deliveries_within_remaining_quota trace st id file :
  files st !! id = Some file ->
  within_quota file ->
  downloads_answered delivered_answer id trace st
  <= maxDownloads file - downloads file.
Proof.
  intros Hf Hq.
  destruct (run_counter trace st id file Hf)
    as (file' & Hf' & Hd).
  destruct (run_within_quota trace st id file file' Hf Hq Hf') as [Hq' Hmax].
  pose proof (downloads_answered_le id trace st). unfold within_quota in Hq'. lia.
Qed.

(** ** Links that are not active *)

Lemma handle_inactive now r st id file :
  files st !! id = Some file -> status file <> active ->
  exists file',
    files (handle now r st) !! id = Some file'
    /\ not_counted file file' /\ status file' <> active.
Proof.
  intros Hf Hs. destruct (handle_evolves now r st id file Hf) as (g & Hg & Hev).
  exists g. split; [done|].
  pose proof (handle_cases now r st id g Hg) as Hc. rewrite Hf in Hc.
  destruct Hc as [->|[->|[->|[Hlt (at_ & req & ->)]]]]; try done.
  exfalso. destruct r as [req'|id0|req'|]; cbn [handle] in Hg.
  - rewrite (upload_keeps _ _ _ _ _ Hf) in Hg.
    injection Hg as Hg. apply (f_equal downloads) in Hg.
    destruct (count_download_fields at_ req file) as [Hd _]. rewrite Hd in Hg. lia.
  - destruct (share_page_document _ _ _ _ _ _ Hf Hg) as [_ [Hd _]].
    destruct (count_download_fields at_ req file) as [Hd' _]. lia.
  - destruct (decide (id = dl_id req')) as [->|Hne].
    + destruct (download_counter now req' st file Hf) as (g & Hg' & Hdg).
      rewrite Hg in Hg'. injection Hg' as <-.
      destruct (count_download_fields at_ req file) as [Hd' _].
      destruct (counted_answer (download now req' st).1) eqn:Hca; [|lia].
      by destruct (download_committed _ _ _ _ Hf Hca) as (_ & ? & _).
    + rewrite download_other in Hg by done.
      assert (count_download at_ req file = file) as Heq by congruence.
      apply (f_equal downloads) in Heq.
      destruct (count_download_fields at_ req file) as [Hd _]. rewrite Hd in Heq. lia.
  - destruct (cleanup_document _ _ _ _ _ Hf Hg) as [_ [Hd _]].
    destruct (count_download_fields at_ req file) as [Hd' _]. lia.
Qed.

(** A document that is expired or disabled is never counted, logged or
    delivered again, whatever requests follow: its counter and history stay
    as they are, it stays inactive, and no download of it is answered with
    the file or reaches the commit block. *)
Theorem inactive_link_is_never_served trace st id file :
  files st !! id = Some file ->
  status file <> active ->
  exists file',
    files (run trace st) !! id = Some file'
    /\ not_counted file file'
    /\ status file' <> active
    /\ downloads_answered counted_answer id trace st = 0
    /\ downloads_answered delivered_answer id trace st = 0.
Proof.
  intros Hf Hs.
  assert (exists file', files (run trace st) !! id = Some file'
            /\ not_counted file file' /\ status file' <> active) as (file' & Hf' & Hn & Hs').
  { revert st file Hf Hs. induction trace as [|[now r] trace IH]; intros st file Hf Hs.
    - by exists file.
    - cbn. destruct (handle_inactive now r st id file Hf Hs) as (g & Hg & [Hd Hh] & Hsg).
      destruct (IH _ _ Hg Hsg) as (h & Hh' & [Hd' Hh''] & Hsh).
      exists h. split; [done|]. split; [split; congruence|done]. }
  exists file'. split; [done|]. split; [done|]. split; [done|].
  destruct (run_counter trace st id file Hf)
    as (g & Hg & Hd).
  assert (g = file') as -> by congruence. destruct Hn as [Hn _].
  pose proof (downloads_answered_le id trace st). lia.
Qed.

(** ** Share statistics *)

(** On documents whose counters start at zero, in every state of a
    sequential execution [peakDownloads] equals [downloads], and
    [totalViews], which both the share page and the download route
    increment, is at least [downloads]. *)
Theorem share_stats_follow_the_counter trace st0 :
  all_files pristine st0 ->
  all_files stats_consistent (run trace st0).
Proof.
  intros H0. apply run_invariant.
  - intros. unfold stats_consistent. cbn. lia.
  - intros f Hf. exact Hf.
  - intros f [Hp Hv]. unfold stats_consistent in *. cbn. lia.
  - intros at_ req f [Hp Hv] _.
    destruct (count_download_fields at_ req f) as (Hd & _ & Htv & Hpk & _).
    unfold stats_consistent. rewrite Hd, Htv, Hpk. lia.
  - intros id f Hf. destruct (H0 _ _ Hf) as (Hd & Hv & Hp).
    unfold stats_consistent. lia.
Qed.

(** ** Protected links carry a hash *)

Lemma new_file_hash_present at_ f req expIn expAt :
  hash_present (new_file at_ f req expIn expAt).
Proof.
  unfold hash_present. cbn. intros Hp. rewrite Hp.
  destruct (up_password req); [by eexists|discriminate Hp].
Qed.

(** When every protected document of the initial store carries a hash, so
    does every protected document in every state of a sequential
    execution: the upload route stores the bcrypt hash exactly when it
    marks the link protected, and no route writes either path afterwards.
    So the password block of the download route, given a string or no
    password, never calls [bcrypt.compare] without a stored hash, the call
    that throws. *)
Theorem protected_links_keep_their_hash trace st0 :
  all_files hash_present st0 ->
  all_files hash_present (run trace st0)
  /\ forall id file password,
      files (run trace st0) !! id = Some file ->
      (passwordProtected file = true -> exists h, passwordHash file = Some h)
      /\ check_password password file <> pw_threw.
Proof.
  intros H0.
  assert (all_files hash_present (run trace st0)) as Hinv.
  { apply run_invariant; try done.
    - apply new_file_hash_present.
    - intros at_ req' f Hf _. unfold hash_present in *.
      destruct (count_download_evolves at_ req' f) as [Hs _].
      destruct Hs as (_ & _ & _ & _ & _ & _ & -> & -> & _). exact Hf. }
  split; [exact Hinv|]. intros id file password Hf.
  split; [intros Hprot; exact (Hinv _ _ Hf Hprot)|].
  unfold check_password.
  destruct (passwordProtected file) eqn:Hprot; [|discriminate].
  destruct (Hinv _ _ Hf Hprot) as [h ->].
  repeat case_match; discriminate.
Qed.

(** ** More on expiry specifications *)

(** A run of digits is a decimal numeral. *)
Lemma all_digits_numeral (a : string) :
  all_digits a = true -> exists d, a = numeral d.
Proof.
  induction a as [|c a IH]; intros H; [by exists Decimal.Nil|].
  cbn in H. apply andb_prop in H as [Hc Ha].
  destruct (IH Ha) as [d ->].
  apply is_digit_listed in Hc. cbn in Hc.
  destruct Hc as [<-|[<-|[<-|[<-|[<-|[<-|[<-|[<-|[<-|[<-|[]]]]]]]]]]].
  - by exists (Decimal.D0 d).
  - by exists (Decimal.D1 d).
  - by exists (Decimal.D2 d).
  - by exists (Decimal.D3 d).
  - by exists (Decimal.D4 d).
  - by exists (Decimal.D5 d).
  - by exists (Decimal.D6 d).
  - by exists (Decimal.D7 d).
  - by exists (Decimal.D8 d).
  - by exists (Decimal.D9 d).
Qed.

(** Where the pattern matches, the specification reads: some text, the
    amount, the unit letter, some text. *)
Lemma digits_then_unit_shape (s amount : string) (unit : ascii) :
  digits_then_unit s = Some (amount, unit) ->
  exists tail, s = amount +:+ String unit tail.
Proof.
  revert amount. induction s as [|c s IH]; intros a H; [discriminate H|].
  cbn [digits_then_unit] in H.
  destruct (is_digit c); [|discriminate H].
  destruct (digits_then_unit s) as [[ds u']|] eqn:Hrec.
  - injection H as <- <-. destruct (IH _ eq_refl) as [tail ->].
    by exists tail.
  - destruct s as [|u0 s']; [discriminate H|].
    destruct (is_unit u0); [|discriminate H].
    injection H as <- <-. by exists s'.
Qed.

Lemma regex_match_shape (s amount : string) (unit : ascii) :
  regex_match s = Some (amount, unit) ->
  exists pre tail, s = pre +:+ amount +:+ String unit tail.
Proof.
  induction s as [|c s IH]; intros H; [discriminate H|].
  cbn [regex_match] in H.
  destruct (digits_then_unit (String c s)) as [m|] eqn:Hm.
  - injection H as ->. apply digits_then_unit_shape in Hm as [tail ->].
    by exists "", tail.
  - destruct (IH H) as (pre & tail & ->). by exists (String c pre), tail.
Qed.

(** No link is issued with an expiry before the instant at which the
    route computed it: whatever the expiry specification, an upload
    answered with success stores as [expiresAt] a valid date that is no
    earlier than the clock reading [now] of [calculateExpirationDate], and
    the expiry test of the routes is false at that instant. The expiry is
    that very instant only when the specification holds a numeral that
    denotes zero, followed by a unit letter. [createdAt] is the later clock
    reading, stored as it was read. *)
Theorem issued_link_not_expired_at_issuance now req st id fname fsize expAt :
  (upload now req st).1 = Uploaded id fname fsize expAt ->
  now <= expAt <= 8640000000000000
  /\ (exists file,
        files (upload now req st).2 !! id = Some file
        /\ createdAt file = up_created req
        /\ expiresAt file = Some expAt
        /\ past_expiry now file = false)
  /\ (expAt = now ->
      exists pre d unit tail,
        default "24h" (up_expiresIn req) = pre +:+ numeral d +:+ String unit tail
        /\ Z.of_uint d = 0).
Proof.
  unfold upload. destruct (up_file req) as [f|]; [|discriminate].
  destruct (calculateExpirationDate now _) as [t|] eqn:Ht; [|discriminate].
  cbn [fst snd]. intros [= <- _ _ <-].
  pose proof (calculateExpirationDate_not_before _ _ _ Ht) as Hle.
  split; [|split].
  - destruct (calculateExpirationDate_sum now (default "24h" (up_expiresIn req)))
      as [t' Ht'].
    rewrite Ht' in Ht. by apply new_Date_Some in Ht as [-> [_ Hmax]].
  - eexists. cbn [files with_files].
    split; [apply lookup_insert_eq|]. split; [done|]. split; [done|].
    unfold past_expiry. cbn. by apply Z.ltb_ge.
  - intros ->. unfold calculateExpirationDate in Ht.
    destruct (regex_match _) as [[amount unit]|] eqn:Hm.
    2: { apply new_Date_Some in Ht as [Ht _]. unfold default_window in Ht. lia. }
    destruct (regex_match_parts _ _ _ Hm) as (Hd & Hne & Hu).
    destruct (regex_match_shape _ _ _ Hm) as (pre & tail & Hshape).
    destruct (all_digits_numeral _ Hd) as [d ->].
    rewrite parseInt_digits, decimal_numeral in Ht by done. cbn in Ht.
    destruct (timeUnits unit) as [len|] eqn:Hlen; [|discriminate Ht]. cbn in Ht.
    apply new_Date_Some in Ht as [Ht _]. apply timeUnits_positive in Hlen.
    exists pre, d, unit, tail. split; [exact Hshape|]. nia.
Qed.

Lemma regex_match_skips_digit_free pre s :
  digit_free pre = true -> s <> "" ->
  regex_match (pre +:+ s) = regex_match s.
Proof.
  intros Hpre Hs. induction pre as [|c pre IH]; [done|].
  cbn in Hpre. apply andb_prop in Hpre as [Hc Hpre].
  rewrite append_String. cbn [regex_match digits_then_unit].
  apply negb_true_iff in Hc. rewrite Hc. by apply IH.
Qed.

(** The pattern is not anchored: text without digits before the first
    token and any text after it are ignored, so a sign, a label or a second
    token does not change the result. With the clock at or after the
    epoch, the expiry is [now] plus the number the first numeral denotes
    times the length of its unit, when that instant is within the range of
    a [Date], and an invalid date when it is beyond. *)
Theorem first_token_decides_the_expiry now pre d unit len tail :
  0 <= now ->
  digit_free pre = true ->
  d <> Decimal.Nil ->
  In (unit, len)
    [("h"%char, 3600000); ("d"%char, 86400000); ("w"%char, 604800000);
     ("m"%char, 2592000000)] ->
  calculateExpirationDate now (pre +:+ numeral d +:+ String unit tail)
  = if now + Z.of_uint d * len <=? 8640000000000000
    then Some (now + Z.of_uint d * len)
    else None.
Proof.
  intros Hnow Hpre Hd Hunit.
  pose proof (N2Z.is_nonneg (Pos.of_uint d)) as Hpos.
  change (Z.of_N (Pos.of_uint d)) with (Z.of_uint d) in Hpos.
  pose proof (timeUnits_listed _ _ Hunit) as Hlen.
  pose proof (timeUnits_positive _ _ Hlen) as Hlen0.
  pose proof (numeral_nonempty d Hd) as Hne.
  assert (calculateExpirationDate now (pre +:+ numeral d +:+ String unit tail)
          = new_Date (now + Z.of_uint d * len)) as ->.
  { rewrite <- decimal_numeral.
    rewrite <- (calculateExpirationDate_token now (numeral d) unit len tail)
      by (done || apply numeral_all_digits).
    unfold calculateExpirationDate.
    rewrite regex_match_skips_digit_free; [done|done|].
    by destruct (numeral d). }
  destruct (now + Z.of_uint d * len <=? 8640000000000000) eqn:Hr.
  - apply Z.leb_le in Hr. apply new_Date_in_range. unfold max_time. nia.
  - apply Z.leb_gt in Hr. by apply new_Date_beyond.
Qed.

(** ** From issuance to download *)

(** A link can be downloaded with the password it was issued with, at any
    instant up to and including its expiry instant, provided
    [bcrypt.compare] accepts a password against its own hash: the answer is
    the uploaded file under its original name. *)
Theorem issued_link_downloads_with_its_password
    now req st f id fname fsize expAt now' dreq :
  (forall pw, up_password req = Some pw -> bcrypt_compare pw (bcrypt_hash pw) = true) ->
  up_file req = Some f ->
  (upload now req st).1 = Uploaded id fname fsize expAt ->
  dl_id dreq = id ->
  dl_password dreq = up_password req ->
  now' <= expAt ->
  (download now' dreq (upload now req st).2).1
  = SendFile (filename f) (originalname f).
Proof.
  clear startOfDay.
  intros Hbc Hfile Hres Hid Hpw Hle. unfold upload in *. rewrite Hfile in *.
  destruct (calculateExpirationDate now _) as [t|] eqn:Ht; [|discriminate].
  cbn [fst snd] in *. injection Hres as <- _ _ <-.
  set (file := new_file (up_created req) f req (default "24h" (up_expiresIn req)) t).
  set (st' := with_files _ _).
  assert (findById (dl_id dreq) st' = Some file) as Hf.
  { rewrite Hid. unfold findById, st'. cbn. apply lookup_insert_eq. }
  rewrite (download_counted _ _ _ _ Hf).
  - cbn [fst]. rewrite bool_decide_eq_true_2; [done|].
    unfold st'. cbn. set_solver.
  - unfold past_expiry. cbn. by apply Z.ltb_ge.
  - done.
  - cbn. lia.
  - unfold check_password. cbn. rewrite Hpw.
    destruct (truthy (up_password req)) eqn:Htr; [|done].
    destruct (up_password req) as [pw|]; [|discriminate Htr].
    cbn. by rewrite (Hbc pw eq_refl).
Qed.

(** ** Page views and downloads *)

Lemma count_download_path now req file :
  path (count_download now req file) = path file
  /\ name (count_download now req file) = name file.
Proof.
  by destruct (count_download_fields now req file)
    as (_ & _ & _ & _ & _ & _ & _ & -> & ->).
Qed.

Lemma download_loaded_view now req disk file n :
  (download_loaded now req disk (set_totalViews n file)).1
  = (download_loaded now req disk file).1.
Proof.
  unfold download_loaded.
  replace (past_expiry now (set_totalViews n file)) with (past_expiry now file)
    by reflexivity.
  replace (check_password (dl_password req) (set_totalViews n file))
    with (check_password (dl_password req) file) by reflexivity.
  change (status (set_totalViews n file)) with (status file).
  change (maxDownloads (set_totalViews n file)) with (maxDownloads file).
  change (downloads (set_totalViews n file)) with (downloads file).
  destruct (count_download_path now req file) as [Hp Hn].
  destruct (count_download_path now req (set_totalViews n file)) as [Hp' Hn'].
  rewrite Hp, Hn, Hp', Hn'. cbn [path name set_totalViews set_shareStats].
  repeat case_match; done.
Qed.

Lemma download_answer now req st :
  (download now req st).1 =
  match findById (dl_id req) st with
  | Some file => (download_loaded now req (uploads st) file).1
  | None => file_not_found
  end.
Proof.
  destruct (findById (dl_id req) st) as [file|] eqn:Hf.
  - by rewrite (download_found _ _ _ _ Hf).
  - by rewrite (download_missing _ _ _ Hf).
Qed.

(** Looking at the share page never changes what a later download is
    answered: the page view only adds to [totalViews], or marks expired a
    link whose download would be refused as expired anyway. *)
Theorem page_view_keeps_download_answer t1 t2 id req st :
  t1 <= t2 ->
  (download t2 req (share_page t1 id st).2).1 = (download t2 req st).1.
Proof.
  intros Hle. rewrite !download_answer.
  assert (uploads (share_page t1 id st).2 = uploads st) as ->.
  { unfold share_page. destruct (findById id st); [|done]. by case_match. }
  destruct (decide (dl_id req = id)) as [<-|Hne].
  - destruct (findById (dl_id req) st) as [file|] eqn:Hf.
    + assert (findById (dl_id req) (share_page t1 (dl_id req) st).2
              = Some (if past_expiry t1 file then set_status expired file
                      else set_totalViews (totalViews (shareStats file) + 1) file))
        as ->.
      { rewrite (share_page_found _ _ _ _ Hf). unfold findById. cbn.
        apply lookup_insert_eq. }
      destruct (past_expiry t1 file) eqn:Hx; [|apply download_loaded_view].
      apply past_expiry_iff in Hx as (e & He & Hlt).
      unfold download_loaded, past_expiry. cbn. rewrite He.
      by rewrite (proj2 (Z.ltb_lt e t2)) by lia.
    + assert (findById (dl_id req) (share_page t1 (dl_id req) st).2 = None) as ->.
      { unfold share_page. by rewrite Hf. }
      done.
  - assert (findById (dl_id req) (share_page t1 id st).2 = findById (dl_id req) st)
      as -> by (unfold findById; by rewrite share_page_other).
    done.
Qed.

(** ** The cleanup job and the disk *)

Lemma expire_one_flag st doc :
  autoDeleteExpired (expire_one st doc) = autoDeleteExpired st.
Proof. destruct doc as [id file]. unfold expire_one. cbn. by case_match. Qed.

Lemma expire_one_uploads st id file x :
  x ∈ uploads (expire_one st (id, file))
  <-> x ∈ uploads st /\ ~ (autoDeleteExpired st = true /\ x = path file).
Proof.
  clear bcrypt_hash bcrypt_compare getFileType startOfDay.
  unfold expire_one. cbn.
  destruct (autoDeleteExpired st); cbn; [|naive_solver].
  case_bool_decide; cbn; [set_solver|].
  split; [|naive_solver]. intros Hx. split; [done|]. intros [_ ->]. done.
Qed.

Lemma cleanup_loop_uploads (docs : list (string * File)) st x :
  x ∈ uploads (foldl expire_one st docs)
  <-> x ∈ uploads st
      /\ ~ (autoDeleteExpired st = true /\ exists doc, doc ∈ docs /\ path doc.2 = x).
Proof.
  clear bcrypt_hash bcrypt_compare getFileType startOfDay.
  revert st. induction docs as [|[k v] docs IH]; intros st; cbn [foldl].
  - split; [|naive_solver]. intros Hx. split; [done|].
    intros (_ & doc & Hin & _). by apply elem_of_nil in Hin.
  - rewrite IH, expire_one_flag, expire_one_uploads. split.
    + intros [[Hx Hkv] Hrest]. split; [done|].
      intros (Hauto & doc & Hin & Hp). apply elem_of_cons in Hin as [->|Hin].
      * apply Hkv. by split.
      * apply Hrest. split; [done|]. by exists doc.
    + intros [Hx Hno]. split; [split; [done|]|].
      * intros [Hauto ->]. apply Hno. split; [done|]. exists (k, v).
        split; [apply elem_of_cons; by left|done].
      * intros (Hauto & doc & Hin & Hp). apply Hno. split; [done|].
        exists doc. split; [apply elem_of_cons; by right|done].
Qed.

Lemma cleanup_uploads now st x :
  x ∈ uploads (cleanup now st)
  <-> x ∈ uploads st
      /\ ~ (autoDeleteExpired st = true
            /\ exists id file,
                files st !! id = Some file
                /\ status file = active
                /\ (exists e, expiresAt file = Some e /\ e <= now)
                /\ path file = x).
Proof.
  clear bcrypt_hash bcrypt_compare getFileType startOfDay.
  unfold cleanup. rewrite cleanup_loop_uploads.
  assert (forall file, cleanup_query now file = true
            <-> status file = active /\ exists e, expiresAt file = Some e /\ e <= now)
    as Hq.
  { intros file. unfold cleanup_query. rewrite andb_true_iff, bool_decide_eq_true.
    destruct (expiresAt file) as [e|]; [rewrite Z.leb_le|]; naive_solver. }
  split; intros [Hx Hno]; (split; [done|]); intros (Hauto & Hex); apply Hno;
    (split; [done|]).
  - destruct Hex as (id & file & Hf & Hs & He & Hp). exists (id, file).
    split; [|done]. apply find_member. split; [done|]. apply Hq. done.
  - destruct Hex as ([id file] & Hin & Hp). apply find_member in Hin as [Hf Hqf].
    apply Hq in Hqf as [Hs He]. by exists id, file.
Qed.

(** What one run of the job does to the uploads directory, in terms of
    the settings document of the default user. When that document stores
    the flag [security.autoDeleteExpired] as [true], or stores no flag (the
    schema default [true] is then read), the job removes the content of
    exactly the links it expires and nothing else. When the document
    stores [false], or there is no settings document, the job leaves the
    directory as it is. It never adds a file. *)
Theorem cleanup_removes_exactly_expired_content now st settings x :
  autoDeleteExpired st = read_autoDeleteExpired settings ->
  x ∈ uploads (cleanup now st)
  <-> x ∈ uploads st
      /\ ~ ((settings = Some None \/ settings = Some (Some true))
            /\ exists id file,
                files st !! id = Some file
                /\ status file = active
                /\ (exists e, expiresAt file = Some e /\ e <= now)
                /\ path file = x).
Proof.
  clear bcrypt_hash bcrypt_compare getFileType startOfDay.
  intros Hflag. rewrite cleanup_uploads, Hflag.
  assert (read_autoDeleteExpired settings = true
          <-> settings = Some None \/ settings = Some (Some true)) as ->.
  { destruct settings as [[[]|]|]; cbn; naive_solver. }
  done.
Qed.

(** The job selects active links only, so the content of a link that a
    request already marked expired, or that is disabled, is left on disk by
    every run, unless an active link that expires shares its storage path. *)
Theorem cleanup_keeps_content_of_inactive_links now st id file :
  files st !! id = Some file ->
  status file <> active ->
  path_is_own id file st ->
  path file ∈ uploads st ->
  path file ∈ uploads (cleanup now st).
Proof.
  clear bcrypt_hash bcrypt_compare getFileType startOfDay.
  intros Hf Hs Hown Hdisk. apply cleanup_uploads.
  split; [done|]. intros (_ & id' & file' & Hf' & Hs' & _ & Hp).
  assert (id' = id) as -> by (by eapply Hown).
  congruence.
Qed.

Lemma download_loaded_disk now req d d' file :
  (path file ∈ d <-> path file ∈ d') ->
  download_loaded now req d file = download_loaded now req d' file.
Proof.
  intros Hd. unfold download_loaded.
  destruct (count_download_path now req file) as [Hp _].
  rewrite Hp. by rewrite (bool_decide_ext _ _ Hd).
Qed.

(** A run of the job does not change what a download served strictly later
    is answered, for a link whose storage path is its own: the links the
    job expires are past their expiry for every later download. *)
Theorem cleanup_keeps_later_download_answer t1 t2 req st :
  t1 < t2 ->
  (forall file, findById (dl_id req) st = Some file ->
                path_is_own (dl_id req) file st) ->
  (download t2 req (cleanup t1 st)).1 = (download t2 req st).1.
Proof.
  clear bcrypt_hash getFileType startOfDay.
  intros Hlt Hown. rewrite !download_answer.
  unfold findById. rewrite cleanup_lookup.
  destruct (files st !! dl_id req) as [file|] eqn:Hf; [|done]. cbn.
  destruct (cleanup_query t1 file) eqn:Hq.
  - unfold cleanup_query in Hq. apply andb_prop in Hq as [_ Hq].
    destruct (expiresAt file) as [e|] eqn:He; [|discriminate Hq].
    apply Z.leb_le in Hq.
    unfold download_loaded, past_expiry. cbn. rewrite He.
    by rewrite (proj2 (Z.ltb_lt e t2)) by lia.
  - f_equal. apply download_loaded_disk.
    rewrite cleanup_uploads. split; [naive_solver|].
    intros Hdisk. split; [done|].
    intros (_ & id' & file' & Hf' & Hs' & (e & He & Hle) & Hp).
    assert (id' = dl_id req) as -> by (by eapply (Hown file Hf)).
    assert (file' = file) as -> by congruence.
    unfold cleanup_query in Hq. rewrite He, bool_decide_eq_true_2 in Hq by done.
    cbn in Hq. apply Z.leb_gt in Hq. lia.
Qed.

(** ** Interleaved downloads and the stored counter *)

Lemma written_unchanged {A} `{EqDecision A} (loaded stored : A) :
  written loaded loaded stored = stored.
Proof. unfold written. by rewrite decide_True. Qed.

Lemma persist_quota loaded cur stored :
  maxDownloads cur = maxDownloads loaded ->
  maxDownloads (persist loaded cur stored) = maxDownloads stored.
Proof. intros H. cbn. rewrite H. apply written_unchanged. Qed.

(** What a download that read [loaded] leaves in a document that other
    handlers may have written in between. *)
Lemma persist_download now req disk loaded res cur stored :
  download_loaded now req disk loaded = (res, Some cur) ->
  maxDownloads stored = maxDownloads loaded ->
  within_quota stored ->
  within_quota (persist loaded cur stored)
  /\ maxDownloads (persist loaded cur stored) = maxDownloads stored.
Proof.
  intros Hd Hmax Hq. apply download_loaded_saved in Hd as [->|[Hlt ->]].
  - split; [|by apply persist_quota]. unfold within_quota in *. cbn.
    by rewrite !written_unchanged.
  - destruct (count_download_fields now req loaded)
      as (Hd & _ & _ & _ & _ & Hm & _).
    split; [|by apply persist_quota]. unfold within_quota. cbn [persist downloads maxDownloads].
    rewrite Hm, written_unchanged, Hd. unfold written. case_decide; lia.
Qed.

Lemma advance_within_quota now h other st :
  all_files within_quota st -> snapshot_of h st -> snapshot_of other st ->
  all_files within_quota (advance now h st).2
  /\ snapshot_of (advance now h st).1 (advance now h st).2
  /\ snapshot_of other (advance now h st).2.
Proof.
  intros Hall Hh Ho. destruct h as [req|req [file|]|res]; cbn [advance].
  - cbn [fst snd]. split; [done|]. split; [|done].
    cbn. unfold findById. destruct (files st !! dl_id req) as [g|] eqn:Hg; [|done].
    by exists g.
  - destruct Hh as (stored & Hst & Hmax).
    destruct (download_loaded now req (uploads st) file) as [res [cur|]] eqn:Hd;
      cbn [fst snd save_if]; [|done].
    pose proof Hd as Hd'.
    eapply persist_download in Hd' as [Hq' Hm']; [|exact Hmax|by eapply Hall].
    split; [|split; [done|]].
    + intros id f. unfold save. cbn [files with_files].
      destruct (decide (id = dl_id req)) as [->|Hne].
      * rewrite lookup_alter_eq, Hst. cbn. by intros [= <-].
      * rewrite lookup_alter_ne by done. apply Hall.
    + destruct other as [req'|req' [file'|]|res']; try done.
      destruct Ho as (stored' & Hst' & Hmax'). unfold save. cbn [snapshot_of files with_files].
      destruct (decide (dl_id req' = dl_id req)) as [Heq|Hne].
      * rewrite Heq in *. rewrite lookup_alter_eq, Hst. cbn. eexists. split; [done|].
        assert (stored' = stored) as -> by congruence. congruence.
      * rewrite lookup_alter_ne by done. by exists stored'.
  - done.
  - done.
Qed.

Lemma interleave_within_quota now schedule h1 h2 st :
  all_files within_quota st -> snapshot_of h1 st -> snapshot_of h2 st ->
  all_files within_quota (interleave now schedule h1 h2 st).2.
Proof.
  revert h1 h2 st. induction schedule as [|[] rest IH]; intros h1 h2 st Hall H1 H2;
    cbn [interleave]; [done| |].
  - destruct (advance_within_quota now h1 h2 st Hall H1 H2) as (Ha & Hb & Hc).
    destruct (advance now h1 st) as [h1' st']. by apply IH.
  - destruct (advance_within_quota now h2 h1 st Hall H2 H1) as (Ha & Hb & Hc).
    destruct (advance now h2 st) as [h2' st']. by apply IH.
Qed.

(** Whatever the order in which two download handlers read and save, the
    stored counter of no document exceeds its quota: a handler writes the
    counter it read plus one, and only after reading it below the quota.
    What is lost when handlers interleave is the count of a served
    download, not the bound on the stored counter. *)
Theorem interleaved_downloads_keep_counter_within_quota now schedule req1 req2 st :
  all_files within_quota st ->
  all_files within_quota
    (interleave now schedule (Arrived req1) (Arrived req2) st).2.
Proof. intros Hall. by apply interleave_within_quota. Qed.

(** ** Daily analytics *)

Lemma date_bump action a : date (bump action a) = date a.
Proof. unfold bump. by repeat case_match. Qed.

Lemma total_cons counter a (l : list Analytics) :
  total counter (a :: l) = counter a + total counter l.
Proof. reflexivity. Qed.

Lemma total_app counter (l k : list Analytics) :
  total counter (l ++ k) = total counter l + total counter k.
Proof.
  induction l as [|a l IH]; [done|].
  rewrite <- app_comm_cons, !total_cons. lia.
Qed.

Lemma total_insert counter (l : list Analytics) i a b :
  l !! i = Some a ->
  total counter (<[i := b]> l) = total counter l - counter a + counter b.
Proof.
  revert i. induction l as [|c l IH]; intros i Hi; [done|].
  destruct i as [|i].
  - injection Hi as ->. change (<[0%nat := b]> (a :: l)) with (b :: l).
    rewrite !total_cons. lia.
  - change (<[S i := b]> (c :: l)) with (c :: <[i := b]> l).
    rewrite !total_cons, (IH i Hi). lia.
Qed.

(** What one call adds to the sum of a counter over all days. *)
Lemma updateAnalytics_total counter action now docs :
  (forall a, counter (bump action a) = counter a + counter (bump action (new_analytics 0))
                                       - counter (new_analytics 0)) ->
  (forall d, counter (new_analytics d) = 0) ->
  total counter (updateAnalytics action now docs)
  = total counter docs + counter (bump action (new_analytics 0)).
Proof.
  intros Hb Hn. unfold updateAnalytics.
  destruct (list_find _ docs) as [[i a]|] eqn:Hfind.
  - apply list_find_Some in Hfind as (Hi & _ & _).
    rewrite (total_insert _ _ _ _ _ Hi), Hb, (Hn 0). lia.
  - rewrite total_app, total_cons. change (total counter []) with 0.
    rewrite Hb, !Hn. lia.
Qed.

Lemma updateAnalytics_downloads action now docs :
  total totalDownloads (updateAnalytics action now docs)
  = total totalDownloads docs + (if String.eqb action "download" then 1 else 0).
Proof.
  rewrite updateAnalytics_total; [| |done].
  - unfold bump. repeat case_match; cbn; try lia.
    all: match goal with
         | H1 : (?a =? "upload")%string = true, H2 : (?a =? "download")%string = true |- _ =>
             apply String.eqb_eq in H1, H2; congruence
         end.
  - intros a. unfold bump. repeat case_match; cbn; lia.
Qed.

Lemma updateAnalytics_shared action now docs :
  total filesShared (updateAnalytics action now docs)
  = total filesShared docs + (if String.eqb action "upload" then 1 else 0).
Proof.
  rewrite updateAnalytics_total; [| |done].
  - unfold bump. repeat case_match; cbn; lia.
  - intros a. unfold bump. repeat case_match; cbn; lia.
Qed.

Lemma updateAnalytics_dates action now docs :
  NoDup (date <$> docs) -> NoDup (date <$> updateAnalytics action now docs).
Proof.
  intros Hnd. unfold updateAnalytics.
  destruct (list_find _ docs) as [[i a]|] eqn:Hfind.
  - apply list_find_Some in Hfind as (Hi & _ & _).
    rewrite list_fmap_insert, date_bump, list_insert_id; [done|].
    by rewrite list_lookup_fmap, Hi.
  - rewrite fmap_app. apply NoDup_app. split; [done|]. split; [|apply NoDup_singleton].
    intros d Hd Hin. cbn in Hin. apply list_elem_of_singleton in Hin.
    rewrite date_bump in Hin. cbn in Hin. subst d.
    apply list_elem_of_fmap in Hd as (a & Ha & Hin).
    apply list_find_None in Hfind. rewrite Forall_forall in Hfind.
    by apply (Hfind a).
Qed.

Lemma handle_site_core now r s : core (handle_site now r s) = handle now r (core s).
Proof.
  destruct r as [req|id|req|]; cbn; try done.
  - unfold upload_route. by destruct (upload now req (core s)).
  - unfold download_route. by destruct (download now req (core s)).
Qed.

Lemma run_site_core trace s : core (run_site trace s) = run trace (core s).
Proof.
  revert s. induction trace as [|[now r] trace IH]; intros s; [done|].
  unfold run_site, run in *. cbn [foldl]. rewrite IH. by rewrite handle_site_core.
Qed.

(** In a sequential execution there is never more than one analytics
    document for a day: [updateAnalytics] creates a document only when
    [findOne] finds none for today. *)
Theorem one_analytics_document_per_day trace s :
  NoDup (date <$> analytics s) ->
  NoDup (date <$> analytics (run_site trace s)).
Proof.
  revert s. induction trace as [|[now r] trace IH]; intros s Hnd; [done|].
  unfold run_site in *. cbn [foldl]. apply IH.
  destruct r as [req|id|req|]; cbn; try done.
  - unfold upload_route. destruct (upload now req (core s)) as [res st]. cbn.
    destruct res; try done. by apply updateAnalytics_dates.
  - unfold download_route. destruct (download now req (core s)) as [res st]. cbn.
    destruct (counted_answer res); [by apply updateAnalytics_dates|done].
Qed.

Lemma sum_of_insert_None (m : gmap string Z) i y :
  m !! i = None -> sum_of (<[i := y]> m) = y + sum_of m.
Proof.
  intros Hi. unfold sum_of. rewrite map_fold_insert_L; [done| |done].
  intros. lia.
Qed.

Lemma sum_of_insert_Some (m : gmap string Z) i x y :
  m !! i = Some x -> sum_of (<[i := y]> m) = sum_of m - x + y.
Proof.
  intros Hi. rewrite <- (insert_delete_id m i x Hi) at 2.
  rewrite <- (insert_delete_eq m).
  rewrite !sum_of_insert_None by apply lookup_delete_eq. lia.
Qed.

Lemma stored_downloads_insert st id file file' :
  files st !! id = Some file ->
  stored_downloads (with_files (<[id := file']> (files st)) st)
  = stored_downloads st - downloads file + downloads file'.
Proof.
  intros Hf. unfold stored_downloads. cbn. rewrite fmap_insert.
  apply sum_of_insert_Some. by rewrite lookup_fmap, Hf.
Qed.

Lemma stored_documents_insert st id file file' :
  files st !! id = Some file ->
  stored_documents (with_files (<[id := file']> (files st)) st) = stored_documents st.
Proof.
  intros Hf. unfold stored_documents. cbn. by rewrite map_size_insert_Some.
Qed.

(** What one request adds to the sum of the counters and to the number of
    documents. *)
Lemma handle_stored now r st :
  stored_downloads (handle now r st)
  = stored_downloads st
    + match r with
      | ReqDownload req => if counted_answer (download now req st).1 then 1 else 0
      | _ => 0
      end
  /\ stored_documents (handle now r st)
     = stored_documents st
       + match r with
         | ReqUpload req =>
             match (upload now req st).1 with Uploaded _ _ _ _ => 1 | _ => 0 end
         | _ => 0
         end.
Proof.
  destruct r as [req|id|req|]; cbn [handle].
  - unfold upload. destruct (up_file req) as [f|]; [|cbn; lia].
    destruct (calculateExpirationDate now _) as [expAt|].
    2: { cbn. unfold stored_downloads, stored_documents. cbn. lia. }
    cbn [fst snd]. unfold stored_downloads, stored_documents.
    cbn [files with_files with_uploads].
    assert (files st !! fresh (dom (files st)) = None) as Hfresh
      by apply not_elem_of_dom, is_fresh.
    rewrite fmap_insert, sum_of_insert_None by (by rewrite lookup_fmap, Hfresh).
    rewrite map_size_insert_None by done. cbn. lia.
  - destruct (findById id st) as [file|] eqn:Hf.
    + rewrite (share_page_found _ _ _ _ Hf).
      rewrite (stored_downloads_insert _ _ _ _ Hf), (stored_documents_insert _ _ _ _ Hf).
      destruct (past_expiry now file); cbn; lia.
    + unfold share_page. rewrite Hf. cbn. lia.
  - destruct (findById (dl_id req) st) as [file|] eqn:Hf.
    2: { rewrite (download_missing _ _ _ Hf). cbn [fst snd].
         assert (counted_answer file_not_found = false) as -> by reflexivity. lia. }
    destruct (download_counter now req st file Hf) as (file' & Hf' & Hd).
    rewrite (download_found _ _ _ _ Hf) in Hf', Hd |- *. cbn [fst snd] in *.
    destruct (download_loaded now req (uploads st) file) as [res [cur|]]; cbn [fst snd] in *.
    + cbn in Hf'. rewrite lookup_insert_eq in Hf'. injection Hf' as <-.
      rewrite (stored_downloads_insert _ _ _ _ Hf), (stored_documents_insert _ _ _ _ Hf).
      lia.
    + unfold findById in Hf. assert (file' = file) as -> by congruence.
      destruct (counted_answer res); lia.
  - assert (downloads <$> files (cleanup now st) = downloads <$> files st) as Hc.
    { apply map_eq. intros id. rewrite !lookup_fmap, cleanup_lookup.
      destruct (files st !! id) as [file|]; [|done]. cbn.
      by destruct (cleanup_query now file). }
    unfold stored_downloads, stored_documents. rewrite Hc.
    rewrite <- (map_size_fmap downloads (files (cleanup now st))), Hc, map_size_fmap.
    lia.
Qed.

(** The analytics collection keeps step with the [File] collection: along
    a sequential execution the sum of [totalDownloads] over all days grows
    by as much as the sum of the download counters of the stored
    documents, and the sum of [filesShared] by as much as the number of
    stored documents. *)
Theorem analytics_totals_follow_the_files trace s :
  total totalDownloads (analytics (run_site trace s))
    - total totalDownloads (analytics s)
  = stored_downloads (core (run_site trace s)) - stored_downloads (core s)
  /\ total filesShared (analytics (run_site trace s))
       - total filesShared (analytics s)
     = stored_documents (core (run_site trace s)) - stored_documents (core s).
Proof.
  revert s. induction trace as [|[now r] trace IH]; intros s;
    [unfold run_site; cbn [foldl]; lia|].
  unfold run_site in *. cbn [foldl]. specialize (IH (handle_site now r s)).
  destruct IH as [IHd IHs].
  destruct (handle_stored now r (core s)) as [Hd Hs].
  rewrite <- handle_site_core in Hd, Hs.
  assert (total totalDownloads (analytics (handle_site now r s))
          = total totalDownloads (analytics s)
            + match r with
              | ReqDownload req =>
                  if counted_answer (download now req (core s)).1 then 1 else 0
              | _ => 0
              end
          /\ total filesShared (analytics (handle_site now r s))
             = total filesShared (analytics s)
               + match r with
                 | ReqUpload req =>
                     match (upload now req (core s)).1 with
                     | Uploaded _ _ _ _ => 1 | _ => 0 end
                 | _ => 0
                 end) as [Had Has].
  { destruct r as [req|id|req|]; cbn [handle_site analytics]; try (split; lia).
    - unfold upload_route. destruct (upload now req (core s)) as [res st].
      cbn [fst snd analytics]. destruct res; try (split; lia).
      rewrite updateAnalytics_downloads, updateAnalytics_shared. cbn. split; lia.
    - unfold download_route. destruct (download now req (core s)) as [res st].
      cbn [fst snd analytics]. destruct (counted_answer res); [|split; lia].
      rewrite updateAnalytics_downloads, updateAnalytics_shared. cbn. split; lia. }
  split; lia.
Qed.

End Server.

(** ** Worked executions *)

Lemma scenario_store_fresh (quota : Z) (password : option string) :
  0 < quota ->
  all_files freshly_created (Scenario.store (Scenario.link quota password)).
Proof.
  intros Hq id file Hf. unfold Scenario.store in Hf. cbn [files] in Hf.
  apply lookup_singleton_Some in Hf as [_ <-].
  unfold freshly_created. cbn. done.
Qed.

(** C1, as stated, fails: after a link with quota 1 was downloaded once and a
    second download was turned away with the limit error, the document has
    [downloads >= maxDownloads], and the third download is answered with the
    inactive error, not the limit error. *)
Lemma C1_limit_error_counterexample :
  ~ (forall (cmp : string -> string -> bool) (hash : string -> string)
       (ftype : string -> string) trace st0 now req file,
       all_files freshly_created st0 ->
       findById (dl_id req) (run hash cmp ftype trace st0) = Some file ->
       maxDownloads file <= downloads file ->
       (download cmp now req (run hash cmp ftype trace st0)).1 = limit_reached).
Proof.
  intros H.
  pose (req := Scenario.request None).
  pose (st0 := Scenario.store (Scenario.link 1 None)).
  pose (trace := [(1000, ReqDownload req); (2000, ReqDownload req)]).
  destruct (findById (dl_id req)
              (run Scenario.hash Scenario.compare Scenario.file_type trace st0))
    as [file|] eqn:Hf; [|vm_compute in Hf; discriminate Hf].
  specialize (H Scenario.compare Scenario.hash Scenario.file_type trace st0 3000 req file
                (scenario_store_fresh 1 None ltac:(lia)) Hf).
  vm_compute in Hf. injection Hf as <-.
  specialize (H ltac:(cbn; lia)). vm_compute in H. discriminate H.
Qed.

Lemma scenario_find (file : File) :
  findById "f1" (Scenario.store file) = Some file.
Proof. apply lookup_singleton_eq. Qed.

Lemma scenario_on_disk (file : File) :
  path file ∈ uploads (Scenario.store file).
Proof. unfold Scenario.store. cbn [uploads]. by apply elem_of_singleton. Qed.

Lemma scenario_find_without_content (file : File) :
  findById "f1" (Scenario.store_without_content file) = Some file.
Proof. apply lookup_singleton_eq. Qed.

Example expiry_24h : calculateExpirationDate 1000 "24h" = Some (1000 + 24 * 3600000).
Proof. reflexivity. Qed.

Example expiry_7d : calculateExpirationDate 0 "7d" = Some (7 * 86400000).
Proof. reflexivity. Qed.

Example expiry_junk : calculateExpirationDate 1000 "soon" = Some (1000 + 86400000).
Proof. reflexivity. Qed.

Example expiry_seconds : calculateExpirationDate 1000 "30s" = Some (1000 + 86400000).
Proof. reflexivity. Qed.

Example expiry_embedded : calculateExpirationDate 0 "in 2d!" = Some (2 * 86400000).
Proof. reflexivity. Qed.

Example expiry_last_date :
  calculateExpirationDate 0 "100000000d" = Some 8640000000000000.
Proof. reflexivity. Qed.

Example expiry_out_of_range : calculateExpirationDate 1 "100000000d" = None.
Proof. reflexivity. Qed.

(** *** Quota *)

Lemma C1_quota_invariant_witness :
  let st0 := Scenario.store (Scenario.link 1 None) in
  let req := Scenario.request None in
  let trace := [(1000, ReqDownload req); (2000, Cron); (3000, ReqDownload req)] in
  all_files freshly_created st0
  /\ all_files within_quota
       (run Scenario.hash Scenario.compare Scenario.file_type trace st0).
Proof.
  intros st0 req trace.
  assert (all_files freshly_created st0) as Hfresh
    by (apply scenario_store_fresh; lia).
  split; [exact Hfresh|].
  exact (proj1 (C1_quota_invariant Scenario.hash Scenario.compare Scenario.file_type
                  trace st0 Hfresh)).
Defined.

(** *** Two downloads in flight *)

Lemma C2_interleaved_downloads_witness :
  let file := Scenario.link 1 None in
  let req := Scenario.request None in
  exists st',
    interleave Scenario.compare 1000 reads_before_writes (Arrived req) (Arrived req)
      (Scenario.store file)
    = (Answered (SendFile "0-report.pdf" "report.pdf"),
       Answered (SendFile "0-report.pdf" "report.pdf"), st')
    /\ exists file',
        findById "f1" st' = Some file'
        /\ downloads file' = 1
        /\ downloadHistory file'
           = [download_event 1000 req; download_event 1000 req].
Proof.
  intros file req.
  apply (C2_interleaved_downloads_both_sent Scenario.compare 1000 req req
           (Scenario.store file) file).
  - reflexivity.
  - apply scenario_find.
  - reflexivity.
  - reflexivity.
  - reflexivity.
  - reflexivity.
  - apply scenario_on_disk.
Defined.

(** *** Status after a counted download *)

(** C3, as stated, fails: the only download a link with quota 1 allows is
    sent, the stored counter equals the quota, and the stored status is
    still active. *)
Lemma C3_status_counterexample :
  ~ (forall (cmp : string -> string -> bool) now req st file file' p n,
       findById (dl_id req) st = Some file ->
       (download cmp now req st).1 = SendFile p n ->
       findById (dl_id req) (download cmp now req st).2 = Some file' ->
       downloads file' = maxDownloads file' ->
       status file' = expired).
Proof.
  intros H.
  pose (req := Scenario.request None).
  pose (file := Scenario.link 1 None).
  specialize (H Scenario.compare 1000 req (Scenario.store file) file
                (count_download 1000 req file) "0-report.pdf" "report.pdf"
                (scenario_find file)).
  specialize (H ltac:(vm_compute; reflexivity) ltac:(vm_compute; reflexivity)
                ltac:(vm_compute; reflexivity)).
  vm_compute in H. discriminate H.
Qed.

Lemma C3_sent_download_witness :
  let file := Scenario.link 1 None in
  let req := Scenario.request None in
  let st := Scenario.store file in
  findById (dl_id req) st = Some file
  /\ (download Scenario.compare 1000 req st).1 = SendFile "0-report.pdf" "report.pdf"
  /\ exists file',
      findById (dl_id req) (download Scenario.compare 1000 req st).2 = Some file'
      /\ downloads file' = downloads file + 1
      /\ status file' = active.
Proof.
  intros file req st.
  assert (findById (dl_id req) st = Some file) as Hf by apply scenario_find.
  assert ((download Scenario.compare 1000 req st).1
          = SendFile "0-report.pdf" "report.pdf") as Hsent
    by (vm_compute; reflexivity).
  split; [exact Hf|]. split; [exact Hsent|].
  destruct (C3_sent_download_keeps_status Scenario.compare 1000 req st file _ _ Hf Hsent)
    as (file' & H1 & H2 & H3 & _).
  exists file'. split; [exact H1|]. split; [exact H2|exact H3].
Defined.

(** *** Downloads at and after the expiry instant *)

(** C4, as stated, fails at [now = expiresAt]: the route compares with [>],
    and a download served exactly at the expiry instant is sent. *)
Lemma C4_expiry_instant_counterexample :
  ~ (forall (cmp : string -> string -> bool) now req st file e,
       findById (dl_id req) st = Some file ->
       expiresAt file = Some e ->
       e <= now ->
       (download cmp now req st).1 = file_has_expired
       /\ (status <$> findById (dl_id req) (download cmp now req st).2) = Some expired).
Proof.
  intros H.
  pose (req := Scenario.request None).
  pose (file := Scenario.link 5 None).
  destruct (H Scenario.compare 3600000 req (Scenario.store file) file 3600000
              (scenario_find file) eq_refl ltac:(lia)) as [Hres _].
  vm_compute in Hres. discriminate Hres.
Qed.

Lemma C4_download_after_expiry_witness :
  let file := Scenario.link 5 (Some "secret") in
  let req := Scenario.request (Some "secret") in
  let st := Scenario.store file in
  findById (dl_id req) st = Some file
  /\ expiresAt file = Some 3600000
  /\ 3600000 < 3600001
  /\ status file = active
  /\ (download Scenario.compare 3600001 req st).1 = file_has_expired
  /\ exists file',
      findById (dl_id req) (download Scenario.compare 3600001 req st).2 = Some file'
      /\ status file' = expired
      /\ downloads file' = 0.
Proof.
  intros file req st.
  assert (findById (dl_id req) st = Some file) as Hf by apply scenario_find.
  assert (3600000 < 3600001) as Hlt by lia.
  split; [exact Hf|]. split; [reflexivity|]. split; [exact Hlt|].
  split; [reflexivity|].
  destruct (C4_download_after_expiry Scenario.compare 3600001 req st file 3600000
              Hf eq_refl Hlt) as (H1 & (file' & H2 & H3 & _ & (H4 & _) & _) & _).
  split; [exact H1|]. exists file'.
  split; [exact H2|]. split; [exact H3|exact H4].
Defined.

(** The same download, computed: the stored status is [expired]. *)
Example download_after_expiry_stores_expired :
  let file := Scenario.link 5 (Some "secret") in
  let req := Scenario.request (Some "secret") in
  status <$> findById "f1"
               (download Scenario.compare 3600001 req (Scenario.store file)).2
  = Some expired.
Proof. vm_compute. reflexivity. Qed.

(** *** The password check *)

Lemma C5_wrong_password_witness :
  let file := Scenario.link 5 (Some "secret") in
  let req := Scenario.request (Some "guess") in
  let st := Scenario.store file in
  findById (dl_id req) st = Some file
  /\ passwordProtected file = true
  /\ passwordHash file = Some (Scenario.hash "secret")
  /\ Scenario.compare "guess" (Scenario.hash "secret") = false
  /\ download Scenario.compare 1000 req st = (invalid_password, st).
Proof.
  intros file req st.
  assert (findById (dl_id req) st = Some file) as Hf by apply scenario_find.
  assert (Scenario.compare "guess" (Scenario.hash "secret") = false) as Hcmp
    by reflexivity.
  split; [exact Hf|]. split; [reflexivity|]. split; [reflexivity|].
  split; [exact Hcmp|].
  apply (C5_wrong_password_changes_nothing Scenario.compare 1000 req st file
           (Scenario.hash "secret") Hf eq_refl eq_refl eq_refl eq_refl).
  - reflexivity.
  - right. exists "guess". split; [reflexivity|exact Hcmp].
Defined.

(** *** Issuance *)

(** C6, as stated, fails on tokens that lead out of the range of a
    [Date]: for the token [300000000d] the expiry is an invalid date, the
    upload is answered with 500, and no link is issued. *)
Lemma C6_date_range_counterexample :
  ~ (forall (hash : string -> string) (ftype : string -> string)
       now req st f (d : Decimal.uint) (unit : ascii) (len : Z),
       0 <= now ->
       up_file req = Some f ->
       up_expiresIn req = Some (numeral d +:+ String unit "") ->
       d <> Decimal.Nil ->
       In (unit, len)
         [("h"%char, 3600000); ("d"%char, 86400000); ("w"%char, 604800000);
          ("m"%char, 2592000000)] ->
       exists id,
         (upload hash ftype now req st).1
         = Uploaded id (originalname f) (filesize f) (now + Z.of_uint d * len)).
Proof.
  intros H.
  pose (f := mkUploadedFile "notes.txt" 12 "1000-notes.txt").
  pose (req := mkUploadReq (Some f) (Some "300000000d") None None (Some "10.0.0.1") 1001).
  destruct (H Scenario.hash Scenario.file_type 1000 req (mkState ∅ ∅ false) f
              (Decimal.D3 (Decimal.D0 (Decimal.D0 (Decimal.D0 (Decimal.D0
                 (Decimal.D0 (Decimal.D0 (Decimal.D0 (Decimal.D0 Decimal.Nil)))))))))
              "d"%char 86400000 ltac:(lia) eq_refl eq_refl ltac:(discriminate)
              ltac:(cbn; tauto)) as [id Hres].
  vm_compute in Hres. discriminate Hres.
Qed.

Lemma C6_expiry_of_issued_link_witness :
  let f := mkUploadedFile "notes.txt" 12 "1000-notes.txt" in
  let req := mkUploadReq (Some f) (Some "7d") None None (Some "10.0.0.1") 1001 in
  let st := Scenario.store (Scenario.link 5 None) in
  up_file req = Some f
  /\ up_expiresIn req = Some "7d"
  /\ 0 <= 1000
  /\ exists id file,
      (upload Scenario.hash Scenario.file_type 1000 req st).1
      = Uploaded id "notes.txt" 12 604801000
      /\ files (upload Scenario.hash Scenario.file_type 1000 req st).2 !! id = Some file
      /\ expiresAt file = Some 604801000
      /\ status file = active.
Proof.
  intros f req st.
  assert (0 <= 1000) as Hnow by lia.
  split; [reflexivity|]. split; [reflexivity|]. split; [exact Hnow|].
  destruct (C6_expiry_of_issued_link Scenario.hash Scenario.file_type 1000 req st
              f "7d" eq_refl eq_refl Hnow) as [_ Htoken].
  destruct (Htoken (Decimal.D7 Decimal.Nil) "d"%char 86400000 eq_refl
              ltac:(discriminate) ltac:(cbn; tauto)) as [Hin _].
  destruct (Hin ltac:(vm_compute; discriminate))
    as (id & file & H1 & _ & H3 & H4 & H5 & _).
  exists id, file.
  split; [exact H1|]. split; [exact H3|]. split; [exact H4|exact H5].
Defined.

(** Issuance, computed: a specification without a token, a token, and a
    token that leads out of the range of a [Date]. *)
Example issuance_by_specification :
  let f := mkUploadedFile "notes.txt" 12 "1000-notes.txt" in
  let up := fun spec => mkUploadReq (Some f) (Some spec) None None None 1001 in
  let answer := fun spec =>
    match (upload Scenario.hash Scenario.file_type 1000 (up spec) (mkState ∅ ∅ false)).1
    with
    | Uploaded _ fname fsize expires => inl (fname, fsize, expires)
    | Json code error => inr (code, error)
    | _ => inr (0, "")
    end in
  answer "tomorrow" = inl ("notes.txt", 12, 1000 + 86400000)
  /\ answer "2w" = inl ("notes.txt", 12, 1000 + 2 * 604800000)
  /\ answer "3m" = inl ("notes.txt", 12, 1000 + 3 * 2592000000)
  /\ answer "12h" = inl ("notes.txt", 12, 1000 + 12 * 3600000)
  /\ answer "300000000d" = inr (500, "Upload failed").
Proof. repeat split; vm_compute; reflexivity. Qed.

(** *** The access log and the counter *)

Lemma C8_interleaved_downloads_witness :
  let file := Scenario.link 3 None in
  let req := Scenario.request None in
  let st := Scenario.store file in
  freshly_created file
  /\ log_matches_counter file
  /\ exists file',
      findById "f1"
        (interleave Scenario.compare 1000 reads_before_writes
           (Arrived req) (Arrived req) st).2 = Some file'
      /\ downloads file' = 1
      /\ length (downloadHistory file') = 2%nat
      /\ ~ log_matches_counter file'.
Proof.
  intros file req st.
  assert (log_matches_counter file) as Hlog by reflexivity.
  split; [unfold freshly_created; cbn; done|]. split; [exact Hlog|].
  destruct (C8_interleaved_downloads_unpair_log_and_counter Scenario.compare 1000
              req req st file eq_refl (scenario_find file) Hlog eq_refl eq_refl
              ltac:(reflexivity) eq_refl)
    as (file' & H1 & H2 & H3 & _ & H5).
  exists file'. split; [exact H1|]. split; [exact H2|].
  split; [by rewrite H3|exact H5].
Defined.

(** The two downloads in flight, computed on a link just created. *)
Example interleaved_downloads_stored_document :
  let st :=
    (interleave Scenario.compare 1000 reads_before_writes
       (Arrived (Scenario.request None)) (Arrived (Scenario.request None))
       (Scenario.store (Scenario.link 3 None))).2 in
  (fun f => (downloads f, length (downloadHistory f))) <$> findById "f1" st
  = Some (1, 2%nat).
Proof. vm_compute. reflexivity. Qed.

(** Requests served one after the other keep the history as long as the
    counter is. *)
Example history_length_serial_run :
  let st0 := Scenario.store (Scenario.link 3 None) in
  let req := Scenario.request None in
  let trace :=
    [(1000, ReqDownload req); (2000, ReqSharePage "f1"); (3000, ReqDownload req);
     (4000, Cron)] in
  all_files log_matches_counter
    (run Scenario.hash Scenario.compare Scenario.file_type trace st0).
Proof.
  intros st0 req trace.
  apply history_length_is_download_count_serially.
  apply scenario_store_fresh. lia.
Qed.

(** *** Content missing from disk *)

Lemma C9_missing_content_witness :
  let file := Scenario.link 1 None in
  let req := Scenario.request None in
  let st := Scenario.store_without_content file in
  findById (dl_id req) st = Some file
  /\ (path file ∉ uploads st)
  /\ (download Scenario.compare 1000 req st).1 = missing_on_disk
  /\ exists file',
      findById (dl_id req) (download Scenario.compare 1000 req st).2 = Some file'
      /\ downloads file' = 1
      /\ downloadHistory file' = [download_event 1000 req].
Proof.
  intros file req st.
  assert (findById (dl_id req) st = Some file) as Hf
    by apply scenario_find_without_content.
  assert (path file ∉ uploads st) as Hdisk by apply not_elem_of_empty.
  split; [exact Hf|]. split; [exact Hdisk|].
  destruct (C9_missing_content_still_counted Scenario.compare 1000 req st file
              Hf eq_refl eq_refl ltac:(reflexivity) eq_refl Hdisk)
    as (Hres & file' & H1 & H2 & H3 & _).
  split; [exact Hres|]. exists file'.
  split; [exact H1|]. split; [exact H2|exact H3].
Defined.

(** *** Links without an expiry date *)

(** C10, as stated, fails in its parenthesis: an active link without
    [expiresAt], under quota and without password, whose content is not on
    disk, is answered with the missing-on-disk error; the download is not
    served, and neither the status nor the quota nor the password check
    turned it away. *)
Lemma C10_missing_content_counterexample :
  ~ (forall (cmp : string -> string -> bool) now req st file,
       findById (dl_id req) st = Some file ->
       expiresAt file = None ->
       (exists p n, (download cmp now req st).1 = SendFile p n)
       \/ status file <> active
       \/ maxDownloads file <= downloads file
       \/ check_password cmp (dl_password req) file <> pw_ok).
Proof.
  intros H.
  pose (file :=
    mkFile "report.pdf" 1024 "0-report.pdf" 0 "1h" None false None 0 5 active
      "PDF" "10.0.0.1" true [] (mkShareStats 0 0 0)).
  destruct (H Scenario.compare 1000 (Scenario.request None)
              (Scenario.store_without_content file) file
              (scenario_find_without_content file) eq_refl)
    as [(p & n & Hsent)|[Hs|[Hq|Hp]]].
  - vm_compute in Hsent. discriminate Hsent.
  - by apply Hs.
  - cbn in Hq. lia.
  - by apply Hp.
Qed.

Lemma C10_no_expiry_date_witness :
  let file :=
    mkFile "report.pdf" 1024 "0-report.pdf" 0 "1h" None false None 0 5 active
      "PDF" "10.0.0.1" true [] (mkShareStats 0 0 0) in
  let req := Scenario.request None in
  let st := Scenario.store file in
  findById (dl_id req) st = Some file
  /\ expiresAt file = None
  /\ (download Scenario.compare 253402300800000 req st).1
     = SendFile "0-report.pdf" "report.pdf"
  /\ files (cleanup 253402300800000 st) !! dl_id req = Some file.
Proof.
  intros file req st.
  assert (findById (dl_id req) st = Some file) as Hf by apply scenario_find.
  split; [exact Hf|]. split; [reflexivity|].
  destruct (C10_no_expiry_date_never_expires Scenario.compare req st file Hf eq_refl
              253402300800000) as (_ & _ & Hcases & _ & Hsweep).
  split; [|exact Hsweep].
  destruct Hcases as [[Hs _]|[(_ & Hq & _)|[(_ & _ & Hp & _)|[(_ & _ & Hp & _)
    |[(_ & _ & _ & Hd & _)|(_ & _ & _ & _ & Hres & _)]]]]].
  - exfalso. by apply Hs.
  - exfalso. cbn in Hq. lia.
  - discriminate Hp.
  - discriminate Hp.
  - exfalso. apply Hd. apply scenario_on_disk.
  - exact Hres.
Defined.

(** *** The cleanup job on a store of three links *)

Example cleanup_three_links :
  let stale := Scenario.link 5 None in
  let live :=
    mkFile "live.txt" 1 "1-live.txt" 0 "7d" (Some 604800000) false None 0 50 active
      "Text" "10.0.0.1" true [] (mkShareStats 0 0 0) in
  let off := set_status disabled stale in
  let st :=
    mkState (list_to_map [("a", stale); ("b", live); ("c", off)])
      ({["0-report.pdf"]} ∪ {["1-live.txt"]}) true in
  status <$> files (cleanup 3600000 st) !! "a" = Some expired
  /\ files (cleanup 3600000 st) !! "a" = Some (set_status expired stale)
  /\ files (cleanup 3600000 st) !! "b" = Some live
  /\ files (cleanup 3600000 st) !! "c" = Some off
  /\ bool_decide ("0-report.pdf" ∈ uploads (cleanup 3600000 st)) = false
  /\ bool_decide ("1-live.txt" ∈ uploads (cleanup 3600000 st)) = true.
Proof. repeat split; vm_compute; reflexivity. Qed.

(** *** A link from issuance to its first download *)

Example issue_then_download :
  let f := mkUploadedFile "notes.txt" 12 "1000-notes.txt" in
  let up := mkUploadReq (Some f) (Some "2d") (Some "secret") None (Some "10.0.0.1") 1001 in
  let st0 := mkState ∅ ∅ false in
  match upload Scenario.hash Scenario.file_type 1000 up st0 with
  | (Uploaded id _ _ expires, st1) =>
      expires = 1000 + 2 * 86400000
      /\ (download Scenario.compare 2000
            (mkDownloadReq id (Some "secret") None None None "Unknown") st1).1
         = SendFile "1000-notes.txt" "notes.txt"
      /\ (download Scenario.compare 2000
            (mkDownloadReq id (Some "wrong") None None None "Unknown") st1).1
         = invalid_password
  | _ => False
  end.
Proof. vm_compute. repeat split; reflexivity. Qed.


(** ** File types *)

Module FileTypeFacts.
Import FileType.

Lemma list_of_append (s t : string) :
  list_ascii_of_string (s +:+ t) = list_ascii_of_string s ++ list_ascii_of_string t.
Proof. induction s as [|c s IH]; [done|]. cbn. by rewrite <- IH. Qed.

Lemma list_of_length (s : string) :
  length (list_ascii_of_string s) = String.length s.
Proof. induction s as [|c s IH]; [done|]. cbn. by rewrite IH. Qed.

Lemma plain_chars (s : string) :
  plain s = true ->
  Forall (fun c => Ascii.eqb c "/" = false /\ Ascii.eqb c "." = false)
    (list_ascii_of_string s).
Proof.
  induction s as [|c s IH]; intros H; [constructor|].
  cbn in H. apply andb_prop in H as [H Hs]. apply andb_prop in H as [H1 H2].
  apply negb_true_iff in H1, H2. constructor; [done|by apply IH].
Qed.

Lemma slash_free_chars (s : string) :
  slash_free s = true ->
  Forall (fun c => Ascii.eqb c "/" = false) (list_ascii_of_string s).
Proof.
  induction s as [|c s IH]; intros H; [constructor|].
  cbn in H. apply andb_prop in H as [H1 Hs].
  apply negb_true_iff in H1. constructor; [done|by apply IH].
Qed.

(** Before any dot was seen, characters other than [/] and [.] only move
    the index once the end of the last part is set. *)
Lemma scan_plain (l rest : list ascii) (i e : Z) :
  e <> -1 ->
  Forall (fun c => Ascii.eqb c "/" = false /\ Ascii.eqb c "." = false) l ->
  scan (l ++ rest) i (mkScan (-1) 0 e false 0)
  = scan rest (i - Z.of_nat (length l)) (mkScan (-1) 0 e false 0).
Proof.
  intros He Hl. revert i. induction Hl as [|c l [Hc1 Hc2] Hl IH]; intros i.
  - cbn. f_equal. lia.
  - cbn [app scan]. rewrite Hc1, Hc2. cbn.
    rewrite (proj2 (Z.eqb_neq e (-1)) He). cbn. rewrite IH.
    f_equal. cbn [length]. lia.
Qed.

Lemma scan_plain_start (l rest : list ascii) (i : Z) :
  0 <= i -> l <> [] ->
  Forall (fun c => Ascii.eqb c "/" = false /\ Ascii.eqb c "." = false) l ->
  scan (l ++ rest) i (mkScan (-1) 0 (-1) true 0)
  = scan rest (i - Z.of_nat (length l)) (mkScan (-1) 0 (i + 1) false 0).
Proof.
  intros Hi Hne Hl. destruct Hl as [|c l [Hc1 Hc2] Hl]; [done|].
  cbn [app scan]. rewrite Hc1, Hc2. cbn.
  rewrite scan_plain by (done || lia). f_equal. cbn [length]. lia.
Qed.

Lemma chars_nonempty (s : string) :
  s <> "" -> rev (list_ascii_of_string s) <> [].
Proof.
  destruct s as [|c s]; [done|]. cbn. intros _ H.
  by apply app_eq_nil in H as [_ H].
Qed.

Lemma scan_dot (rest : list ascii) (i e : Z) :
  e <> -1 ->
  scan ("."%char :: rest) i (mkScan (-1) 0 e false 0)
  = scan rest (i - 1) (mkScan i 0 e false 0).
Proof.
  intros He. cbn [scan].
  change (Ascii.eqb "." "/") with false. change (Ascii.eqb "." ".") with true.
  cbn [startDot startPart endPart matchedSlash preDotState].
  rewrite (proj2 (Z.eqb_neq e (-1)) He).
  cbn [startDot startPart endPart matchedSlash preDotState]. reflexivity.
Qed.

(** After the last dot, the characters of the same part only settle
    [preDotState]. *)
Lemma scan_stem (l : list ascii) (i d e p : Z) :
  d <> -1 -> e <> -1 ->
  Forall (fun c => Ascii.eqb c "/" = false) l ->
  exists p',
    scan l i (mkScan d 0 e false p) = mkScan d 0 e false p'
    /\ (l <> [] -> p' = 1 \/ p' = -1)
    /\ (l = [] -> p' = p).
Proof.
  intros Hd He Hl. revert i p. induction Hl as [|c l Hc Hl IH]; intros i p.
  - exists p. done.
  - cbn [scan]. rewrite Hc. cbn.
    rewrite (proj2 (Z.eqb_neq e (-1)) He). cbn.
    rewrite (proj2 (Z.eqb_neq d (-1)) Hd). cbn.
    destruct (Ascii.eqb c ".").
    + destruct (p =? 1) eqn:Hp; cbn.
      * apply Z.eqb_eq in Hp as ->. destruct (IH (i - 1) 1) as (p' & -> & H1 & H2).
        exists p'. split; [done|]. split; [|done]. intros _.
        destruct l; [left; by apply H2|by apply H1].
      * destruct (IH (i - 1) 1) as (p' & -> & H1 & H2).
        exists p'. split; [done|]. split; [|done]. intros _.
        destruct l; [left; by apply H2|by apply H1].
    + destruct (IH (i - 1) (-1)) as (p' & -> & H1 & H2).
      exists p'. split; [done|]. split; [|done]. intros _.
      destruct l; [right; by apply H2|by apply H1].
Qed.

Lemma substring_all (s : string) : String.substring 0 (String.length s) s = s.
Proof. induction s as [|c s IH]; [done|]. cbn. by rewrite IH. Qed.

Lemma substring_skip (s t : string) (n : nat) :
  String.substring (String.length s) n (s +:+ t) = String.substring 0 n t.
Proof. induction s as [|c s IH]; [done|]. cbn. exact IH. Qed.

(** The extension of a name made of a non-empty stem, a dot and a
    non-empty last part without dot. *)
Lemma extname_of_name (stem ext : string) :
  stem <> "" -> slash_free stem = true ->
  ext <> "" -> plain ext = true ->
  extname (stem +:+ "." +:+ ext) = "." +:+ ext.
Proof.
  intros Hstem Hsf Hext Hpl. unfold extname.
  rewrite !list_of_append, !length_app, !rev_app_distr, !list_of_length.
  cbn [list_ascii_of_string rev app length String.length].
  rewrite <- !app_assoc. cbn [app].
  assert (rev (list_ascii_of_string ext) <> []) as Hne by by apply chars_nonempty.
  rewrite scan_plain_start; [|lia|done|by apply Forall_rev, plain_chars].
  rewrite length_rev, list_of_length.
  set (e := Z.of_nat (String.length stem + (1 + String.length ext)) - 1 + 1).
  set (d := Z.of_nat (String.length stem + (1 + String.length ext)) - 1
            - Z.of_nat (String.length ext)).
  assert (e <> -1) as He by (unfold e; lia).
  assert (d <> -1) as Hd by (unfold d; lia).
  rewrite scan_dot by done.
  destruct (scan_stem (rev (list_ascii_of_string stem)) (d - 1) d e 0 Hd He)
    as (p & -> & Hp & _).
  { by apply Forall_rev, slash_free_chars. }
  cbn [startDot startPart endPart matchedSlash preDotState].
  assert (p = 1 \/ p = -1) as Hp'.
  { apply Hp. by apply chars_nonempty. }
  rewrite (proj2 (Z.eqb_neq d (-1)) Hd), (proj2 (Z.eqb_neq e (-1)) He).
  assert ((p =? 0) = false) as -> by (apply Z.eqb_neq; lia).
  assert ((d =? e - 1) = false) as ->.
  { apply Z.eqb_neq. unfold d, e. destruct ext; [done|]. cbn [String.length]. lia. }
  rewrite andb_false_r. cbn [orb andb].
  unfold slice.
  replace (Z.to_nat d) with (String.length stem) by (unfold d; lia).
  replace (Z.to_nat (e - d)) with (String.length (String "." ext))
    by (unfold d, e; cbn [String.length]; lia).
  rewrite substring_skip. apply (substring_all (String "." ext)).
Qed.

Lemma lower_dot (s : string) : toLowerCase ("." +:+ s) = "." +:+ toLowerCase s.
Proof. reflexivity. Qed.

(** For names of code units below 256, the strings of [FileType]: the
    type of a named file is decided by the text after its last dot,
    compared up to the case of the ASCII and Latin-1 letters: two names
    whose last parts have the same [toLowerCase] get the same type,
    whatever comes before the last dot. *)
Theorem file_type_is_decided_by_last_extension (stem stem' ext ext' : string) :
  stem <> "" -> slash_free stem = true -> ext <> "" -> plain ext = true ->
  stem' <> "" -> slash_free stem' = true -> ext' <> "" -> plain ext' = true ->
  toLowerCase ext = toLowerCase ext' ->
  getFileType (stem +:+ "." +:+ ext) = getFileType (stem' +:+ "." +:+ ext')
  /\ getFileType (stem +:+ "." +:+ ext)
     = default "Other" (typeMap ("." +:+ toLowerCase ext)).
Proof.
  intros H1 H2 H3 H4 H1' H2' H3' H4' Hlow. unfold getFileType.
  rewrite !extname_of_name, !lower_dot by done. by rewrite Hlow.
Qed.

(** A name without a dot, and a name whose only dot is its first
    character, has no extension and is typed [Other]. *)
Theorem file_without_extension_is_other (name : string) :
  plain name = true ->
  getFileType name = "Other" /\ getFileType ("." +:+ name) = "Other".
Proof.
  intros Hpl.
  assert (extname name = "") as E1.
  { unfold extname. destruct name as [|c name]; [done|].
    rewrite <- (app_nil_r (rev _)).
    rewrite scan_plain_start;
      [done|rewrite list_of_length; cbn; lia| |by apply Forall_rev, plain_chars].
    by apply chars_nonempty. }
  assert (extname ("." +:+ name) = "") as E2.
  { destruct (decide (name = "")) as [->|Hn]; [done|].
    unfold extname. change ("." +:+ name) with (String "." name).
    cbn [list_ascii_of_string rev length].
    rewrite scan_plain_start;
      [|lia|by apply chars_nonempty|by apply Forall_rev, plain_chars].
    rewrite scan_dot by lia.
    cbn [scan startDot startPart endPart matchedSlash preDotState].
    change (0 =? 0) with true. by rewrite orb_true_r. }
  unfold getFileType. by rewrite E1, E2.
Qed.

End FileTypeFacts.


(** ** The expiry label of the list of shares *)

Module RecentSharesFacts.
Import RecentShares.

(** A printed integer starts with a digit or a minus sign. *)
Lemma show_head (n : Z) :
  exists c rest, show n = String c rest /\ c <> "E"%char.
Proof.
  unfold show. destruct (Z.to_int n) as [d|d]; cbn.
  - destruct d; cbn; eexists _, _; (split; [reflexivity|discriminate]).
  - eexists _, _. split; [reflexivity|discriminate].
Qed.

Lemma show_is_not_expired (n : Z) (suffix : string) :
  show n +:+ suffix <> "Expired".
Proof.
  destruct (show_head n) as (c & rest & -> & Hc).
  change (String c rest +:+ suffix) with (String c (rest +:+ suffix)).
  intros [= H _]. by apply Hc.
Qed.

Lemma expired_label_iff (now e : Z) :
  formatExpiryTime now e = "Expired" <-> e <= now.
Proof.
  unfold formatExpiryTime. destruct (e - now <=? 0) eqn:Hd.
  - apply Z.leb_le in Hd. split; [lia|done].
  - apply Z.leb_gt in Hd. split; [|lia]. intros H. exfalso.
    repeat case_match; by apply show_is_not_expired in H.
Qed.

(** The list shows a link as [Expired] exactly when [expiresAt <= now].
    For an active link that is the test of the cleanup job; it is not the
    test of the routes: at the expiry instant itself the label is
    [Expired] while the share page and the download route still treat the
    link as live. *)
Theorem expired_label_is_the_cleanup_test (now : Z) (file : File) (e : Z) :
  expiresAt file = Some e ->
  (formatExpiryTime now e = "Expired" <-> e <= now)
  /\ (status file = active ->
      (formatExpiryTime now e = "Expired" <-> cleanup_query now file = true))
  /\ (formatExpiryTime e e = "Expired" /\ past_expiry e file = false).
Proof.
  intros He. split; [apply expired_label_iff|]. split.
  - intros Hs. rewrite expired_label_iff. unfold cleanup_query.
    rewrite He, bool_decide_eq_true_2 by done. cbn. symmetry. apply Z.leb_le.
  - split; [apply expired_label_iff; lia|].
    unfold past_expiry. rewrite He. apply Z.ltb_irrefl.
Qed.

End RecentSharesFacts.


(** ** Worked executions for the further properties *)

Lemma scenario_path_is_own (file : File) :
  path_is_own "f1" file (Scenario.store file).
Proof.
  intros id' file' Hf _. unfold Scenario.store in Hf. cbn [files] in Hf.
  by apply lookup_singleton_Some in Hf as [<- _].
Qed.

Lemma scenario_all (P : File -> Prop) (file : File) :
  P file -> all_files P (Scenario.store file).
Proof.
  intros HP id f Hf. unfold Scenario.store in Hf. cbn [files] in Hf.
  by apply lookup_singleton_Some in Hf as [_ <-].
Qed.

Lemma issued_link_not_expired_at_issuance_witness :
  let f := mkUploadedFile "notes.txt" 12 "1000-notes.txt" in
  let req := mkUploadReq (Some f) (Some "0h") None None None 1001 in
  let st := mkState ∅ ∅ false in
  exists id,
    (upload Scenario.hash Scenario.file_type 1000 req st).1
    = Uploaded id "notes.txt" 12 1000
    /\ exists file,
        files (upload Scenario.hash Scenario.file_type 1000 req st).2 !! id = Some file
        /\ createdAt file = 1001
        /\ expiresAt file = Some 1000
        /\ past_expiry 1000 file = false.
Proof.
  intros f req st.
  destruct (upload Scenario.hash Scenario.file_type 1000 req st).1
    as [| id fname fsize expAt | |] eqn:Hres; try (vm_compute in Hres; discriminate Hres).
  exists id.
  destruct (issued_link_not_expired_at_issuance Scenario.hash Scenario.file_type
              1000 req st id fname fsize expAt Hres)
    as (_ & (file & H1 & H2 & H3 & H4) & _).
  assert (fname = "notes.txt" /\ fsize = 12 /\ expAt = 1000) as (-> & -> & ->).
  { vm_compute in Hres. by injection Hres as _ <- <- <-. }
  split; [reflexivity|]. by exists file.
Defined.

Lemma first_token_decides_the_expiry_witness :
  0 <= 0
  /\ digit_free "-" = true
  /\ calculateExpirationDate 0 "-5d then 1h" = Some 432000000.
Proof.
  assert (0 <= 0) as Hnow by lia.
  split; [exact Hnow|]. split; [reflexivity|].
  exact (first_token_decides_the_expiry 0 "-" (Decimal.D5 Decimal.Nil) "d" 86400000
           " then 1h" Hnow eq_refl ltac:(discriminate) ltac:(cbn; tauto)).
Defined.

Lemma issued_link_downloads_with_its_password_witness :
  let f := mkUploadedFile "notes.txt" 12 "1000-notes.txt" in
  let req := mkUploadReq (Some f) (Some "1h") (Some "secret") None None 1001 in
  let st := mkState ∅ ∅ false in
  exists id,
    (upload Scenario.hash Scenario.file_type 1000 req st).1
    = Uploaded id "notes.txt" 12 3601000
    /\ (download Scenario.compare 3601000
          (mkDownloadReq id (Some "secret") None None None "Unknown")
          (upload Scenario.hash Scenario.file_type 1000 req st).2).1
       = SendFile "1000-notes.txt" "notes.txt".
Proof.
  intros f req st.
  destruct (upload Scenario.hash Scenario.file_type 1000 req st).1
    as [| id fname fsize expAt | |] eqn:Hres; try (vm_compute in Hres; discriminate Hres).
  exists id.
  assert (fname = "notes.txt" /\ fsize = 12 /\ expAt = 3601000) as (-> & -> & ->).
  { vm_compute in Hres. by injection Hres as _ <- <- <-. }
  split; [reflexivity|].
  apply (issued_link_downloads_with_its_password Scenario.hash Scenario.compare
           Scenario.file_type 1000 req st f id "notes.txt" 12 3601000 3601000).
  - intros pw [= <-]. reflexivity.
  - reflexivity.
  - exact Hres.
  - reflexivity.
  - reflexivity.
  - lia.
Defined.

Lemma documents_are_kept_witness :
  let file := Scenario.link 2 None in
  let req := Scenario.request None in
  let trace := [(1000, ReqDownload req); (2000, ReqSharePage "f1"); (4000000, Cron)] in
  exists file',
    files (run Scenario.hash Scenario.compare Scenario.file_type trace
             (Scenario.store file)) !! "f1" = Some file'
    /\ same_link file file'.
Proof.
  intros file req trace.
  exact (documents_are_kept_and_descriptions_fixed Scenario.hash Scenario.compare
           Scenario.file_type trace (Scenario.store file) "f1" file
           (scenario_find file)).
Defined.

Lemma counter_and_history_only_grow_witness :
  let file := Scenario.link 2 None in
  let req := Scenario.request None in
  let trace := [(1000, ReqDownload req); (2000, ReqDownload req)] in
  exists file',
    files (run Scenario.hash Scenario.compare Scenario.file_type trace
             (Scenario.store file)) !! "f1" = Some file'
    /\ downloads file <= downloads file'
    /\ downloadHistory file `prefix_of` downloadHistory file'.
Proof.
  intros file req trace.
  destruct (files (run Scenario.hash Scenario.compare Scenario.file_type trace
                     (Scenario.store file)) !! "f1") as [file'|] eqn:Hf';
    [|vm_compute in Hf'; discriminate Hf'].
  exists file'. split; [reflexivity|].
  exact (counter_and_history_only_grow Scenario.hash Scenario.compare
           Scenario.file_type trace (Scenario.store file) "f1" file file'
           (scenario_find file) Hf').
Defined.

Lemma status_only_moves_to_expired_witness :
  let file := set_status disabled (Scenario.link 2 None) in
  let req := Scenario.request None in
  let trace := [(1000, ReqDownload req); (4000000, ReqSharePage "f1")] in
  exists file',
    files (run Scenario.hash Scenario.compare Scenario.file_type trace
             (Scenario.store file)) !! "f1" = Some file'
    /\ (status file' = status file \/ status file' = expired).
Proof.
  intros file req trace.
  destruct (files (run Scenario.hash Scenario.compare Scenario.file_type trace
                     (Scenario.store file)) !! "f1") as [file'|] eqn:Hf';
    [|vm_compute in Hf'; discriminate Hf'].
  exists file'. split; [reflexivity|].
  exact (proj1 (status_only_moves_to_expired Scenario.hash Scenario.compare
                  Scenario.file_type trace (Scenario.store file) "f1" file file'
                  (scenario_find file) Hf')).
Defined.

Lemma inactive_link_is_never_served_witness :
  let file := set_status disabled (Scenario.link 2 None) in
  let req := Scenario.request None in
  let trace := [(1000, ReqDownload req); (2000, Cron); (3000, ReqDownload req)] in
  status file <> active
  /\ downloads_answered Scenario.hash Scenario.compare Scenario.file_type
       delivered_answer "f1" trace (Scenario.store file) = 0.
Proof.
  intros file req trace.
  assert (status file <> active) as Hs by discriminate.
  split; [exact Hs|].
  destruct (inactive_link_is_never_served Scenario.hash Scenario.compare
              Scenario.file_type trace (Scenario.store file) "f1" file
              (scenario_find file) Hs) as (_ & _ & _ & _ & _ & H).
  exact H.
Defined.

Lemma counter_counts_committed_downloads_witness :
  let file := Scenario.link 2 None in
  let req := Scenario.request None in
  let trace := [(1000, ReqDownload req); (2000, ReqSharePage "f1"); (3000, ReqDownload req);
                (3500, ReqDownload req)] in
  exists file',
    files (run Scenario.hash Scenario.compare Scenario.file_type trace
             (Scenario.store file)) !! "f1" = Some file'
    /\ downloads file'
       = downloads file
         + downloads_answered Scenario.hash Scenario.compare Scenario.file_type
             counted_answer "f1" trace (Scenario.store file).
Proof.
  intros file req trace.
  exact (counter_counts_committed_downloads Scenario.hash Scenario.compare
           Scenario.file_type trace (Scenario.store file) "f1" file
           (scenario_find file)).
Defined.

Lemma deliveries_within_remaining_quota_witness :
  let file := Scenario.link 2 None in
  let req := Scenario.request None in
  let trace := [(1000, ReqDownload req); (2000, ReqDownload req); (3000, ReqDownload req)] in
  within_quota file
  /\ downloads_answered Scenario.hash Scenario.compare Scenario.file_type
       delivered_answer "f1" trace (Scenario.store file)
     <= maxDownloads file - downloads file.
Proof.
  intros file req trace.
  assert (within_quota file) as Hq by (unfold within_quota; cbn; lia).
  split; [exact Hq|].
  exact (deliveries_within_remaining_quota Scenario.hash Scenario.compare
           Scenario.file_type trace (Scenario.store file) "f1" file
           (scenario_find file) Hq).
Defined.

Lemma share_stats_follow_the_counter_witness :
  let file := Scenario.link 2 None in
  let req := Scenario.request None in
  let trace := [(1000, ReqSharePage "f1"); (2000, ReqDownload req)] in
  all_files pristine (Scenario.store file)
  /\ all_files stats_consistent
       (run Scenario.hash Scenario.compare Scenario.file_type trace (Scenario.store file)).
Proof.
  intros file req trace.
  assert (all_files pristine (Scenario.store file)) as H0.
  { apply scenario_all. unfold pristine. cbn. done. }
  split; [exact H0|].
  exact (share_stats_follow_the_counter Scenario.hash Scenario.compare
           Scenario.file_type trace (Scenario.store file) H0).
Defined.

Lemma protected_links_keep_their_hash_witness :
  let file := Scenario.link 2 (Some "secret") in
  let f := mkUploadedFile "notes.txt" 12 "1000-notes.txt" in
  let up := mkUploadReq (Some f) (Some "1h") (Some "pass") None None 1001 in
  let trace := [(1000, ReqUpload up);
                (2000, ReqDownload (Scenario.request (Some "guess")))] in
  all_files hash_present (Scenario.store file)
  /\ all_files hash_present
       (run Scenario.hash Scenario.compare Scenario.file_type trace
          (Scenario.store file)).
Proof.
  intros file f up trace.
  assert (all_files hash_present (Scenario.store file)) as H0.
  { apply scenario_all. intros _. by eexists. }
  split; [exact H0|].
  exact (proj1 (protected_links_keep_their_hash Scenario.hash Scenario.compare
                  Scenario.file_type trace (Scenario.store file) H0)).
Defined.

Lemma page_view_keeps_download_answer_witness :
  let st := Scenario.store (Scenario.link 2 None) in
  let req := Scenario.request None in
  1000 <= 2000
  /\ (download Scenario.compare 2000 req (share_page 1000 "f1" st).2).1
     = (download Scenario.compare 2000 req st).1.
Proof.
  intros st req. assert (1000 <= 2000) as Hle by lia.
  split; [exact Hle|].
  exact (page_view_keeps_download_answer Scenario.compare 1000 2000 "f1" req st Hle).
Defined.

Lemma cleanup_removes_exactly_expired_content_witness :
  let st := Scenario.store (Scenario.link 2 None) in
  autoDeleteExpired st = read_autoDeleteExpired (Some None)
  /\ ("0-report.pdf" ∈ uploads st)
  /\ ("0-report.pdf" ∉ uploads (cleanup 3600000 st)).
Proof.
  intros st.
  assert (autoDeleteExpired st = read_autoDeleteExpired (Some None)) as Hflag
    by reflexivity.
  split; [exact Hflag|]. split; [apply (scenario_on_disk (Scenario.link 2 None))|].
  intros Hin.
  apply (cleanup_removes_exactly_expired_content 3600000 st (Some None)
           "0-report.pdf" Hflag) in Hin as [_ Hno].
  apply Hno. split; [by left|].
  exists "f1", (Scenario.link 2 None).
  split; [apply scenario_find|]. split; [reflexivity|].
  split; [exists 3600000; split; [reflexivity|lia]|reflexivity].
Defined.

(** With a settings document that stores [false], and without a settings
    document, the content of an expired link stays on disk. *)
Example cleanup_without_auto_delete :
  let file := Scenario.link 2 None in
  let st := mkState {[ "f1" := file ]} {[ path file ]}
              (read_autoDeleteExpired (Some (Some false))) in
  let st' := mkState {[ "f1" := file ]} {[ path file ]}
               (read_autoDeleteExpired None) in
  status <$> files (cleanup 3600000 st) !! "f1" = Some expired
  /\ bool_decide ("0-report.pdf" ∈ uploads (cleanup 3600000 st)) = true
  /\ bool_decide ("0-report.pdf" ∈ uploads (cleanup 3600000 st')) = true.
Proof. repeat split; vm_compute; reflexivity. Qed.

Lemma cleanup_keeps_content_of_inactive_links_witness :
  let file := set_status expired (Scenario.link 2 None) in
  let st := Scenario.store file in
  status file <> active
  /\ path file ∈ uploads st
  /\ path file ∈ uploads (cleanup 4000000 st).
Proof.
  intros file st.
  assert (status file <> active) as Hs by discriminate.
  assert (path file ∈ uploads st) as Hd by apply scenario_on_disk.
  split; [exact Hs|]. split; [exact Hd|].
  exact (cleanup_keeps_content_of_inactive_links 4000000 st "f1" file
           (scenario_find file) Hs (scenario_path_is_own file) Hd).
Defined.

Lemma cleanup_keeps_later_download_answer_witness :
  let st := Scenario.store (Scenario.link 2 None) in
  let req := Scenario.request None in
  3600000 < 3600001
  /\ (download Scenario.compare 3600001 req (cleanup 3600000 st)).1
     = (download Scenario.compare 3600001 req st).1.
Proof.
  intros st req. assert (3600000 < 3600001) as Hlt by lia.
  split; [exact Hlt|].
  apply (cleanup_keeps_later_download_answer Scenario.compare 3600000 3600001 req st Hlt).
  intros file Hf. unfold st in Hf. rewrite scenario_find in Hf. injection Hf as <-.
  apply scenario_path_is_own.
Defined.

Lemma interleaved_downloads_keep_counter_witness :
  let st := Scenario.store (Scenario.link 1 None) in
  let req := Scenario.request None in
  all_files within_quota st
  /\ all_files within_quota
       (interleave Scenario.compare 1000 reads_before_writes
          (Arrived req) (Arrived req) st).2.
Proof.
  intros st req.
  assert (all_files within_quota st) as H0.
  { apply scenario_all. unfold within_quota. cbn. lia. }
  split; [exact H0|].
  exact (interleaved_downloads_keep_counter_within_quota Scenario.compare 1000
           reads_before_writes req req st H0).
Defined.

Lemma one_analytics_document_per_day_witness :
  let day := fun now : Z => now / 86400000 * 86400000 in
  let site := mkSite (Scenario.store (Scenario.link 3 None)) [] in
  let req := Scenario.request None in
  let trace := [(1000, ReqDownload req); (2000, ReqDownload req);
                (90000000, ReqDownload req)] in
  NoDup (date <$> analytics site)
  /\ NoDup (date <$> analytics
              (run_site Scenario.hash Scenario.compare Scenario.file_type day trace site)).
Proof.
  intros day site req trace.
  assert (NoDup (date <$> analytics site)) as H0 by apply NoDup_nil_2.
  split; [exact H0|].
  exact (one_analytics_document_per_day Scenario.hash Scenario.compare
           Scenario.file_type day trace site H0).
Defined.

Example analytics_of_three_downloads :
  let day := fun now : Z => now / 86400000 * 86400000 in
  let site := mkSite (Scenario.store (Scenario.link 3 None)) [] in
  let req := Scenario.request None in
  let trace := [(1000, ReqDownload req); (2000, ReqDownload req);
                (90000000, ReqDownload req); (90000001, ReqDownload req)] in
  (fun a => (date a, totalDownloads a))
    <$> analytics (run_site Scenario.hash Scenario.compare Scenario.file_type day trace site)
  = [(0, 2)].
Proof. vm_compute. reflexivity. Qed.

Lemma file_type_is_decided_by_last_extension_witness :
  FileType.getFileType "Holiday.Photos.JPG" = FileType.getFileType "x.jpg"
  /\ FileType.getFileType "Holiday.Photos.JPG" = "Image".
Proof.
  exact (FileTypeFacts.file_type_is_decided_by_last_extension
           "Holiday.Photos" "x" "JPG" "jpg"
           ltac:(discriminate) eq_refl ltac:(discriminate) eq_refl
           ltac:(discriminate) eq_refl ltac:(discriminate) eq_refl eq_refl).
Defined.

Lemma file_without_extension_is_other_witness :
  FileType.plain "Makefile" = true
  /\ FileType.getFileType "Makefile" = "Other"
  /\ FileType.getFileType ".Makefile" = "Other".
Proof.
  split; [reflexivity|].
  exact (FileTypeFacts.file_without_extension_is_other "Makefile" eq_refl).
Defined.

Lemma expired_label_is_the_cleanup_test_witness :
  let file := Scenario.link 2 None in
  expiresAt file = Some 3600000
  /\ RecentShares.formatExpiryTime 3600000 3600000 = "Expired"
  /\ past_expiry 3600000 file = false.
Proof.
  intros file. split; [reflexivity|].
  exact (proj2 (proj2 (RecentSharesFacts.expired_label_is_the_cleanup_test
                         3600000 file 3600000 eq_refl))).
Defined.

Example extname_documented_cases :
  FileType.extname "index.html" = ".html"
  /\ FileType.extname "index.coffee.md" = ".md"
  /\ FileType.extname "index." = "."
  /\ FileType.extname "index" = ""
  /\ FileType.extname ".index" = ""
  /\ FileType.extname ".index.md" = ".md".
Proof. repeat split; reflexivity. Qed.

Example expiry_labels :
  RecentShares.formatExpiryTime 0 (3 * 86400000 + 5) = "3d"
  /\ RecentShares.formatExpiryTime 0 (5 * 3600000) = "5h"
  /\ RecentShares.formatExpiryTime 0 59999 = "0m"
  /\ RecentShares.formatExpiryTime 0 0 = "Expired".
Proof. repeat split; reflexivity. Qed.
